(** * Smoothieware extruder module: angle optimizer, block handshake, homing

    A shallow embedding of [src/modules/tools/extruder/Extruder.cpp] and
    [AngleSensor.cpp], and the properties of the module proved on it.

    Number model.  The C++ code computes on [float].  Two models are used.
    The object and its member functions are embedded with every [float] as
    an exact rational ([Q]): comparisons are comparisons of rationals ([==]
    is [Qeq]) and no operation rounds.  The properties proved on this model
    are those of the control flow, the calls and the fields, which rounding
    does not decide.  Where rounding decides, the functions are embedded
    once more on IEEE 754 single precision ([Binary32], on [SpecFloat] with
    24 bits of precision): the angle optimizer, the step count and the carry
    of [on_block_begin], and the loop of the homing scan.
    Float literals that are not exactly representable ([0.00001F], [0.01F],
    [PI]) are given their exact binary32 value.  [abs] applied to a [float]
    is the floating point absolute value.  [int] and [uint32_t] values are
    integers ([Z]); a conversion from [float] to an integer type is modelled
    where the C++ conversion is defined (the value fits the type). *)

From Stdlib Require Import QArith Qabs Qround Qminmax ZArith List Bool Ascii Lia Lqa.
From Stdlib Require Import Floats.SpecFloat.
Import ListNotations.
Open Scope Q_scope.

(** ** Float helpers *)

Definition Qltb (a b : Q) : bool := negb (Qle_bool b a).

(** [floorf] *)
Definition floorf (x : Q) : Z := Qfloor x.

(** Conversion of a non-negative [float] to [unsigned int]: truncation. *)
Definition to_unsigned (x : Q) : Z := Z.quot (Qnum x) (Zpos (Qden x)).

(** [uint32_t] arithmetic wraps around. *)
Definition uint32 (z : Z) : Z := (z mod 2 ^ 32)%Z.

(** [0.00001F], [0.01F] and [PI] (3.14159265358979F) as binary32 values. *)
Definition eps_travel : Q := 10995116 # (2 ^ 40).
Definition eps_diameter : Q := 10737418 # (2 ^ 30).
Definition PI : Q := 13176795 # (2 ^ 22).

(** ** Constants of Extruder.h

    The header is not part of the sources at hand.  Its constants are taken as
    parameters; [FIRST_CASE] .. [FOURTH_CASE] label the four positions of the
    [rotation_distance] vector, as the comments next to the four [push_back]
    calls say. *)

Record ExtruderH := {
  MAX_ANGLE_LIMIT : Q;
  MIN_ANGLE_LIMIT : Q;
  DEGREE_OF_CYCLE : Q;
  RAW_SEARCH_ANGLE : Q
}.

Inductive DiffCase := FIRST_CASE | SECOND_CASE | THIRD_CASE | FOURTH_CASE.

Definition diff_case_of (i : nat) : option DiffCase :=
  match i with
  | 0%nat => Some FIRST_CASE
  | 1%nat => Some SECOND_CASE
  | 2%nat => Some THIRD_CASE
  | 3%nat => Some FOURTH_CASE
  | _ => None
  end.

(** [#define OFF 0], [SOLO 1], [FOLLOW 2] *)
Inductive Mode := OFF | SOLO | FOLLOW.

Definition Mode_eqb (a b : Mode) : bool :=
  match a, b with
  | OFF, OFF | SOLO, SOLO | FOLLOW, FOLLOW => true
  | _, _ => false
  end.

(** ** Collaborators *)

(** Modelled from the spec: the shared motion-queue block ([Block.h] is not
    among the sources).  A block is known by its identity; [take] and
    [release] are recorded as calls, [steps_event_count] is read. *)
Record Block := {
  block_id : nat;
  steps_event_count : Z
}.

(** Modelled from the spec: the command source ([Gcode.h] is not among the
    sources): [has_letter], [get_value], [get_num_args] over the parsed
    words of the line, and the travel of the primary axes. *)
Record Gcode := {
  has_m : bool;
  m : Z;
  has_g : bool;
  g : Z;
  subcode : Z;
  words : list (ascii * Q);
  millimeters_of_travel : Q
}.

Definition has_letter (gc : Gcode) (c : ascii) : bool :=
  existsb (fun w => Ascii.eqb (fst w) c) (words gc).

Definition get_value (gc : Gcode) (c : ascii) : Q :=
  match find (fun w => Ascii.eqb (fst w) c) (words gc) with
  | Some w => snd w
  | None => 0
  end.

Definition get_num_args (gc : Gcode) : nat := length (words gc).

(** Modelled from the spec: the stepper abstraction ([StepperMotor.h] is not
    among the sources): [move] programs a direction and a step count and
    starts the motor when the count is positive, [set_speed] and
    [set_max_rate] store a rate. *)
Record StepperMotor := {
  moving : bool;
  direction : bool;
  steps_to_move : Z;
  steps_per_second : Q;
  max_rate : Q;
  moved_last_block : bool;
  motor_enabled : bool
}.

Definition motor_set_speed (v : Q) (sm : StepperMotor) : StepperMotor :=
  {| moving := moving sm; direction := direction sm;
     steps_to_move := steps_to_move sm; steps_per_second := v;
     max_rate := max_rate sm; moved_last_block := moved_last_block sm;
     motor_enabled := motor_enabled sm |}.

Definition motor_set_max_rate (v : Q) (sm : StepperMotor) : StepperMotor :=
  {| moving := moving sm; direction := direction sm;
     steps_to_move := steps_to_move sm; steps_per_second := steps_per_second sm;
     max_rate := v; moved_last_block := moved_last_block sm;
     motor_enabled := motor_enabled sm |}.

Definition motor_set_moved_last_block (b : bool) (sm : StepperMotor) : StepperMotor :=
  {| moving := moving sm; direction := direction sm;
     steps_to_move := steps_to_move sm; steps_per_second := steps_per_second sm;
     max_rate := max_rate sm; moved_last_block := b;
     motor_enabled := motor_enabled sm |}.

Definition motor_enable (b : bool) (sm : StepperMotor) : StepperMotor :=
  {| moving := moving sm; direction := direction sm;
     steps_to_move := steps_to_move sm; steps_per_second := steps_per_second sm;
     max_rate := max_rate sm; moved_last_block := moved_last_block sm;
     motor_enabled := b |}.

Definition motor_set_moving (b : bool) (sm : StepperMotor) : StepperMotor :=
  {| moving := b; direction := direction sm;
     steps_to_move := steps_to_move sm; steps_per_second := steps_per_second sm;
     max_rate := max_rate sm; moved_last_block := moved_last_block sm;
     motor_enabled := motor_enabled sm |}.

(** [move(direction, steps)] and [move(direction, steps, initial_speed)] *)
Definition motor_move (dir : bool) (steps : Z) (initial_speed : option Q)
    (sm : StepperMotor) : StepperMotor :=
  {| moving := (0 <? steps)%Z; direction := dir;
     steps_to_move := steps;
     steps_per_second :=
       match initial_speed with
       | Some v => if (0 <? steps)%Z then v else steps_per_second sm
       | None => steps_per_second sm
       end;
     max_rate := max_rate sm; moved_last_block := moved_last_block sm;
     motor_enabled := motor_enabled sm |}.

(** Values read from [THEKERNEL] and its modules. *)
Record Kernel := {
  acceleration_ticks_per_second : Q;
  trapezoid_adjusted_rate : Q;
  seconds_per_minute : Q
}.

(** What the homing scan observes: the value [get_raw_value] returns at its
    i-th call, and whether [is_halted] becomes true while the i-th move of the
    scan is in progress. *)
Record Scan := {
  raw_value : nat -> Z;
  halted_during : nat -> bool
}.

(** Calls on collaborators whose state is not part of the extruder. *)
Inductive Call :=
| block_take (b : Block)
| block_release (b : Block)
| stepper_move (dir : bool) (steps : Z)
| conveyor_append_gcode (gc : Gcode)
| conveyor_queue_head_block
| conveyor_wait_for_empty_queue
| robot_relative_move_Z (z feedrate : Q).

(** ** The extruder object *)

Record Extruder := {
  enabled : bool;
  identifier : Z;
  mode : Mode;
  absolute_mode : bool;
  milestone_absolute_mode : bool;
  milestone_last_position : Q;
  retracted : bool;
  cancel_zlift_restore : bool;
  current_position : Q;
  target_position : Q;
  current_angle : Q;
  target_angle : Q;
  previous_angle : Q;
  travel_distance : Q;
  travel_ratio : Q;
  travel_angle : Q;
  unstepped_distance : Q;
  saved_current_position : Q;
  saved_current_angle : Q;
  current_position_optimize : Q;
  steps_per_millimeter : Q;
  steps_per_angle : Q;
  filament_diameter : Q;
  volumetric_multiplier : Q;
  extruder_multiplier : Q;
  acceleration : Q;
  feed_rate : Q;
  max_volumetric_rate : Q;
  retract_length : Q;
  retract_feedrate : Q;
  retract_recover_length : Q;
  retract_recover_feedrate : Q;
  retract_zlift_length : Q;
  retract_zlift_feedrate : Q;
  current_block : option Block;
  stepper_motor : StepperMotor;
  en_pin : bool;
  en_ultrasonic_pin : bool
}.

(** Field assignment [this->f = v].  The record is rebuilt from its
    projections with the assigned one replaced. *)
Definition rebuild (e : Extruder) : Extruder :=
  Build_Extruder (enabled e) (identifier e) (mode e) (absolute_mode e)
    (milestone_absolute_mode e) (milestone_last_position e) (retracted e)
    (cancel_zlift_restore e) (current_position e) (target_position e)
    (current_angle e) (target_angle e) (previous_angle e) (travel_distance e)
    (travel_ratio e) (travel_angle e) (unstepped_distance e)
    (saved_current_position e) (saved_current_angle e)
    (current_position_optimize e) (steps_per_millimeter e) (steps_per_angle e)
    (filament_diameter e) (volumetric_multiplier e) (extruder_multiplier e)
    (acceleration e) (feed_rate e) (max_volumetric_rate e) (retract_length e)
    (retract_feedrate e) (retract_recover_length e)
    (retract_recover_feedrate e) (retract_zlift_length e)
    (retract_zlift_feedrate e) (current_block e) (stepper_motor e) (en_pin e)
    (en_ultrasonic_pin e).

Ltac assign proj :=
  let v := fresh "v" in
  let e := fresh "e" in
  intros v e;
  let body := eval cbv beta delta [rebuild] in (rebuild e) in
  match body with
  | context C [proj e] => let t := context C [v] in exact t
  end.

Definition set_mode : Mode -> Extruder -> Extruder := ltac:(assign mode).
Definition set_absolute_mode : bool -> Extruder -> Extruder := ltac:(assign absolute_mode).
Definition set_milestone_absolute_mode : bool -> Extruder -> Extruder := ltac:(assign milestone_absolute_mode).
Definition set_milestone_last_position : Q -> Extruder -> Extruder := ltac:(assign milestone_last_position).
Definition set_retracted : bool -> Extruder -> Extruder := ltac:(assign retracted).
Definition set_cancel_zlift_restore : bool -> Extruder -> Extruder := ltac:(assign cancel_zlift_restore).
Definition set_current_position : Q -> Extruder -> Extruder := ltac:(assign current_position).
Definition set_target_position : Q -> Extruder -> Extruder := ltac:(assign target_position).
Definition set_current_angle : Q -> Extruder -> Extruder := ltac:(assign current_angle).
Definition set_target_angle : Q -> Extruder -> Extruder := ltac:(assign target_angle).
Definition set_previous_angle : Q -> Extruder -> Extruder := ltac:(assign previous_angle).
Definition set_travel_distance : Q -> Extruder -> Extruder := ltac:(assign travel_distance).
Definition set_travel_ratio : Q -> Extruder -> Extruder := ltac:(assign travel_ratio).
Definition set_travel_angle : Q -> Extruder -> Extruder := ltac:(assign travel_angle).
Definition set_unstepped_distance : Q -> Extruder -> Extruder := ltac:(assign unstepped_distance).
Definition set_saved_current_position : Q -> Extruder -> Extruder := ltac:(assign saved_current_position).
Definition set_saved_current_angle : Q -> Extruder -> Extruder := ltac:(assign saved_current_angle).
Definition set_current_position_optimize : Q -> Extruder -> Extruder := ltac:(assign current_position_optimize).
Definition set_steps_per_millimeter : Q -> Extruder -> Extruder := ltac:(assign steps_per_millimeter).
Definition set_filament_diameter : Q -> Extruder -> Extruder := ltac:(assign filament_diameter).
Definition set_volumetric_multiplier : Q -> Extruder -> Extruder := ltac:(assign volumetric_multiplier).
Definition set_extruder_multiplier : Q -> Extruder -> Extruder := ltac:(assign extruder_multiplier).
Definition set_acceleration : Q -> Extruder -> Extruder := ltac:(assign acceleration).
Definition set_feed_rate : Q -> Extruder -> Extruder := ltac:(assign feed_rate).
Definition set_max_volumetric_rate : Q -> Extruder -> Extruder := ltac:(assign max_volumetric_rate).
Definition set_retract_length : Q -> Extruder -> Extruder := ltac:(assign retract_length).
Definition set_retract_feedrate : Q -> Extruder -> Extruder := ltac:(assign retract_feedrate).
Definition set_retract_recover_length : Q -> Extruder -> Extruder := ltac:(assign retract_recover_length).
Definition set_retract_recover_feedrate : Q -> Extruder -> Extruder := ltac:(assign retract_recover_feedrate).
Definition set_retract_zlift_length : Q -> Extruder -> Extruder := ltac:(assign retract_zlift_length).
Definition set_retract_zlift_feedrate : Q -> Extruder -> Extruder := ltac:(assign retract_zlift_feedrate).
Definition set_current_block : option Block -> Extruder -> Extruder := ltac:(assign current_block).
Definition set_stepper_motor : StepperMotor -> Extruder -> Extruder := ltac:(assign stepper_motor).
Definition set_en_pin : bool -> Extruder -> Extruder := ltac:(assign en_pin).
Definition set_en_ultrasonic_pin : bool -> Extruder -> Extruder := ltac:(assign en_ultrasonic_pin).

(** ** Member functions as state transformers

    A member function reads and writes the fields of [this] and calls
    collaborators: it is a function from the object to a result, the new
    object and the calls made, in order. *)

Definition M (A : Type) : Type := Extruder -> A * Extruder * list Call.

Definition ret {A} (a : A) : M A := fun e => (a, e, []).

Definition bind {A B} (c : M A) (f : A -> M B) : M B :=
  fun e =>
    let '(a, e1, l1) := c e in
    let '(b, e2, l2) := f a e1 in
    (b, e2, l1 ++ l2).

Definition this : M Extruder := fun e => (e, e, []).
Definition assign_with (f : Extruder -> Extruder) : M unit := fun e => (tt, f e, []).
Definition call (c : Call) : M unit := fun e => (tt, e, [c]).
Definition on_stepper (f : StepperMotor -> StepperMotor) : M unit :=
  assign_with (fun e => set_stepper_motor (f (stepper_motor e)) e).

Notation "x <- c1 ;; c2" := (bind c1 (fun x => c2))
  (at level 61, c1 at next level, right associativity).
Notation "c1 ;; c2" := (bind c1 (fun _ => c2))
  (at level 61, right associativity).
Notation "'when' b 'then' c" := (if b then c else ret tt)
  (at level 60, b at level 200).

Definition result {A} (r : A * Extruder * list Call) : A := fst (fst r).
Definition after {A} (r : A * Extruder * list Call) : Extruder := snd (fst r).
Definition calls {A} (r : A * Extruder * list Call) : list Call := snd r.

(** ** Angle conversions *)

Definition distance_to_angle (e : Extruder) (dist : Q) : Q :=
  (dist * steps_per_millimeter e) / steps_per_angle e.

Definition angle_to_distance (e : Extruder) (angle : Q) : Q :=
  (angle * steps_per_angle e) / steps_per_millimeter e.

Definition getNextEdgeAngle (angle : Q) : Q :=
  let resAngle := 180 + angle in
  if Qle_bool 360 resAngle then resAngle - 360 else resAngle.

(** ** std::min_element and std::max_element

    Both return the first of several equal extreme elements; the functions
    below return its index ([std::distance] from [begin]). *)

Fixpoint min_element_from (best : Q) (best_i i : nat) (l : list Q) : nat :=
  match l with
  | [] => best_i
  | x :: l' =>
      if Qltb x best then min_element_from x i (S i) l'
      else min_element_from best best_i (S i) l'
  end.

Definition min_element (l : list Q) : nat :=
  match l with
  | [] => 0%nat
  | x :: l' => min_element_from x 0%nat 1%nat l'
  end.

Fixpoint max_element_from (best : Z) (best_i i : nat) (l : list Z) : nat :=
  match l with
  | [] => best_i
  | x :: l' =>
      if (best <? x)%Z then max_element_from x i (S i) l'
      else max_element_from best best_i (S i) l'
  end.

Definition max_element (l : list Z) : nat :=
  match l with
  | [] => 0%nat
  | x :: l' => max_element_from x 0%nat 1%nat l'
  end.

(** ** Extruder::optimize_angle *)

(** [if (input_angle < 0) input_angle = 360 + input_angle;] *)
Definition normalize_angle (input_angle : Q) : Q :=
  if Qltb input_angle 0 then 360 + input_angle else input_angle.

(** [if (MAX_ANGLE_LIMIT < input_angle || input_angle < MIN_ANGLE_LIMIT)
       input_angle = (input_angle/MAX_ANGLE_LIMIT)*MAX_ANGLE_LIMIT;] *)
Definition limit_angle (h : ExtruderH) (input_angle : Q) : Q :=
  if Qltb (MAX_ANGLE_LIMIT h) input_angle || Qltb input_angle (MIN_ANGLE_LIMIT h)
  then (input_angle / MAX_ANGLE_LIMIT h) * MAX_ANGLE_LIMIT h
  else input_angle.

(** The vector [rotation_distance] after the four [push_back] calls. *)
Definition rotation_distance (previous input_angle : Q) : list Q :=
  [ Qabs (previous - input_angle);
    Qabs (360 - Qabs (previous - input_angle));
    Qabs (getNextEdgeAngle previous - input_angle);
    Qabs (360 - Qabs (getNextEdgeAngle previous - input_angle)) ].

Definition optimize_angle (h : ExtruderH) (input_angle : Q) : M Q :=
  let input_angle := normalize_angle input_angle in
  e <- this ;;
  if Qeq_bool input_angle (previous_angle e) then
    assign_with (set_travel_distance 0) ;;
    ret 0
  else
    let input_angle := limit_angle h input_angle in
    let rotation_distance := rotation_distance (previous_angle e) input_angle in
    let diff_case := min_element rotation_distance in
    if Qeq_bool (nth diff_case rotation_distance 0) 0 then
      assign_with (set_travel_distance 0) ;;
      ret 0
    else
      match diff_case_of diff_case with
      | Some FIRST_CASE =>
          assign_with (set_travel_distance
            (angle_to_distance e (input_angle - previous_angle e)))
      | Some SECOND_CASE =>
          if Qltb (previous_angle e - input_angle) 0 then
            assign_with (set_travel_distance
              (angle_to_distance e (nth diff_case rotation_distance 0) * (-1)))
          else
            assign_with (set_travel_distance
              (angle_to_distance e (nth diff_case rotation_distance 0)))
      | Some THIRD_CASE =>
          assign_with (set_travel_distance
            (angle_to_distance e (input_angle - getNextEdgeAngle (previous_angle e))))
      | Some FOURTH_CASE =>
          if Qltb (getNextEdgeAngle (previous_angle e) - input_angle) 0 then
            assign_with (set_travel_distance
              (angle_to_distance e (nth diff_case rotation_distance 0) * (-1)))
          else
            assign_with (set_travel_distance
              (angle_to_distance e (nth diff_case rotation_distance 0)))
      | None => ret tt
      end ;;
      assign_with (set_previous_angle input_angle) ;;
      ret 0.

(** ** Block lifecycle: on_block_begin, on_block_end, on_speed_change,
       stepper_motor_finished_move *)

(** The [void *] argument of an event handler: null or not. *)
Inductive Argument := null | non_null.

Definition stepper_motor_move (dir : bool) (steps : Z) (initial_speed : option Q) : M unit :=
  on_stepper (motor_move dir steps initial_speed) ;;
  call (stepper_move dir steps).

Definition is_some {A} (o : option A) : bool :=
  match o with Some _ => true | None => false end.

Definition rate_increase (k : Kernel) (e : Extruder) : Z :=
  floorf ((acceleration e / acceleration_ticks_per_second k) * steps_per_millimeter e).

Definition on_speed_change (k : Kernel) (argument : Argument) : M unit :=
  e <- this ;;
  match current_block e with
  | None => ret tt
  | Some block =>
      if negb (enabled e) || negb (Mode_eqb (mode e) FOLLOW)
         || negb (moving (stepper_motor e))
      then ret tt
      else
        match argument with
        | null =>
            stepper_motor_move false 0 None ;;
            call (block_release block) ;;
            assign_with (set_current_block None)
        | non_null =>
            on_stepper (motor_set_speed
              (trapezoid_adjusted_rate k
               * inject_Z (steps_to_move (stepper_motor e))
               / inject_Z (steps_event_count block)))
        end
  end.

Definition on_block_begin (k : Kernel) (block : Block) : M unit :=
  e <- this ;;
  if negb (enabled e) then ret tt
  else if Mode_eqb (mode e) OFF then
    assign_with (set_current_block None) ;;
    on_stepper (motor_set_moved_last_block false)
  else
    (* common for both FOLLOW and SOLO *)
    assign_with (set_current_position (current_position e + travel_distance e)) ;;
    assign_with (set_current_angle
      (current_angle e + distance_to_angle e (travel_distance e))) ;;
    e1 <- this ;;
    when (Qltb 360 (current_angle e1)) then (
      assign_with (set_current_angle (current_angle e1 - 360)) ;;
      assign_with (fun e2 =>
        set_current_position (angle_to_distance e2 (current_angle e2)) e2)) ;;
    (* round down, we take care of the fractional part next time *)
    let steps_to_step :=
      Z.abs (floorf (steps_per_millimeter e
                     * (travel_distance e + unstepped_distance e))) in
    (* accumulate the fractional part *)
    (if Qltb 0 (travel_distance e) then
       assign_with (set_unstepped_distance
         (unstepped_distance e
          + (travel_distance e - inject_Z steps_to_step / steps_per_millimeter e)))
     else
       assign_with (set_unstepped_distance
         (unstepped_distance e
          + (travel_distance e + inject_Z steps_to_step / steps_per_millimeter e)))) ;;
    if negb (steps_to_step =? 0)%Z then
      (* We take the block, we have to release it or everything gets stuck *)
      call (block_take block) ;;
      assign_with (set_current_block (Some block)) ;;
      stepper_motor_move (Qltb 0 (travel_distance e)) steps_to_step None ;;
      if Mode_eqb (mode e) FOLLOW then
        on_speed_change k non_null ;;
        on_stepper (motor_set_moved_last_block true)
      else
        let target_rate := floorf (feed_rate e * steps_per_millimeter e) in
        on_stepper (motor_set_speed
          (inject_Z (Z.min target_rate (rate_increase k e)))) ;;
        on_stepper (motor_set_moved_last_block false)
    else
      assign_with (set_current_block None) ;;
      on_stepper (motor_set_moved_last_block false).

Definition on_block_end : M unit :=
  e <- this ;;
  if negb (enabled e) then ret tt
  else assign_with (set_current_block None).

Definition acceleration_tick (k : Kernel) : M unit :=
  e <- this ;;
  if negb (enabled e) || negb (Mode_eqb (mode e) SOLO)
     || negb (is_some (current_block e)) || negb (moving (stepper_motor e))
  then ret tt
  else
    let current_rate := to_unsigned (steps_per_second (stepper_motor e)) in
    let target_rate := floorf (feed_rate e * steps_per_millimeter e) in
    when (current_rate <? target_rate)%Z then
      on_stepper (motor_set_speed
        (inject_Z (Z.min target_rate (uint32 (current_rate + rate_increase k e))))).

Definition stepper_motor_finished_move (dummy : Z) : M Z :=
  e <- this ;;
  if negb (enabled e) then ret 0%Z
  else
    match current_block e with
    | Some block =>
        assign_with (set_current_block None) ;;
        call (block_release block) ;;
        ret 0%Z
    | None => ret 0%Z
    end.

(** ** Extruder::do_home

    The scan loop runs while [current_search_angle <= DEGREE_OF_CYCLE]; it
    does not end when [RAW_SEARCH_ANGLE] is not positive, so the model takes
    fuel.  The busy wait after a move ends when the motor has finished the
    move (the stepper then calls the attached [stepper_motor_finished_move])
    or returns from [do_home] when the kernel is halted.  The model returns
    the locals [sensor_value] and [angle], which the C++ function drops. *)

Inductive Homing :=
| homed (sensor_value : list Z) (angle : Q)
| halted
| out_of_fuel.

(** [while(is_moving()) { if(is_halted()) return; }]: true when halted. *)
Definition wait_move (sc : Scan) (i : nat) : M bool :=
  e <- this ;;
  if moving (stepper_motor e) then
    if halted_during sc i then ret true
    else
      on_stepper (motor_set_moving false) ;;
      stepper_motor_finished_move 0 ;;
      ret false
  else ret false.

Fixpoint find_zero_angle (fuel : nat) (h : ExtruderH) (sc : Scan)
    (current_search_angle : Q) (sensor_value : list Z) : M (option (option (list Z))) :=
  if Qle_bool current_search_angle (DEGREE_OF_CYCLE h) then
    match fuel with
    | O => ret None
    | S fuel' =>
        e <- this ;;
        stepper_motor_move true
          (to_unsigned (RAW_SEARCH_ANGLE h * steps_per_angle e)) (Some 1000) ;;
        let current_search_angle := current_search_angle + RAW_SEARCH_ANGLE h in
        let i := length sensor_value in
        let sensor_value := sensor_value ++ [raw_value sc i] in
        stop <- wait_move sc i ;;
        if stop then ret (Some None)
        else find_zero_angle fuel' h sc current_search_angle sensor_value
    end
  else ret (Some (Some sensor_value)).

Definition do_home (fuel : nat) (h : ExtruderH) (sc : Scan) : M Homing :=
  (* Prepare motor *)
  on_stepper (motor_enable true) ;;
  on_stepper (motor_set_speed 10000) ;;
  on_stepper (motor_set_moved_last_block true) ;;
  (* Find zero angle *)
  scan <- find_zero_angle fuel h sc 0 [] ;;
  match scan with
  | None => ret out_of_fuel
  | Some None => ret halted
  | Some (Some sensor_value) =>
      let angle := inject_Z (Z.of_nat (max_element sensor_value))
                   * RAW_SEARCH_ANGLE h in
      (* Set zero angle *)
      e <- this ;;
      stepper_motor_move true (to_unsigned (angle * steps_per_angle e)) (Some 1000) ;;
      stop <- wait_move sc (length sensor_value) ;;
      if stop then ret halted else ret (homed sensor_value angle)
  end.

(** ** Extruder::on_gcode_received

    Text written to streams ([printf], [txt_after_ok], [add_nl]) is not part
    of the model.  The synthesized [G0 Z.. F..] command sent to the robot
    between [push_state] and [pop_state], in relative mode, is recorded as
    one call with the two values given to [snprintf]. *)

Local Open Scope char_scope.

(** [(this->enabled && !gcode->has_letter('P')) ||
     (gcode->has_letter('P') && gcode->get_value('P') == this->identifier)] *)
Definition addressed (e : Extruder) (gcode : Gcode) : bool :=
  (enabled e && negb (has_letter gcode "P"))
  || (has_letter gcode "P"
      && Qeq_bool (get_value gcode "P") (inject_Z (identifier e))).

Definition volumetric_multiplier_of (diameter : Q) : Q :=
  1 / ((diameter / 2) * (diameter / 2) * PI).

(** The first [if (gcode->has_m) .. else if (gcode->has_g) ..] statement.
    The result is false when the function returns from inside it
    ([return; // ignore duplicates]). *)
Definition received_command (gcode : Gcode) : M bool :=
  e <- this ;;
  if has_m gcode then
    (if (m gcode =? 114)%Z && (subcode gcode =? 0)%Z && enabled e then
       ret tt
     else if (m gcode =? 92)%Z && addressed e gcode then
       when (has_letter gcode "E") then
         assign_with (set_steps_per_millimeter (get_value gcode "E"))
     else if (m gcode =? 200)%Z && addressed e gcode then
       when (has_letter gcode "D") then (
         call conveyor_wait_for_empty_queue ;;
         assign_with (set_filament_diameter (get_value gcode "D")) ;;
         if Qltb eps_diameter (get_value gcode "D") then
           assign_with (set_volumetric_multiplier
             (volumetric_multiplier_of (get_value gcode "D")))
         else
           assign_with (set_volumetric_multiplier 1))
     else if (m gcode =? 203)%Z && addressed e gcode then
       if (get_num_args gcode =? 0)%nat then ret tt
       else
         (when (has_letter gcode "E") then
            on_stepper (motor_set_max_rate (get_value gcode "E"))) ;;
         (when (has_letter gcode "V") then
            assign_with (set_max_volumetric_rate (get_value gcode "V")))
     else if (m gcode =? 204)%Z && has_letter gcode "E" && addressed e gcode then
       assign_with (set_acceleration (get_value gcode "E"))
     else if (m gcode =? 207)%Z && addressed e gcode then
       (when (has_letter gcode "S") then
          assign_with (set_retract_length (get_value gcode "S"))) ;;
       (when (has_letter gcode "F") then
          assign_with (set_retract_feedrate (get_value gcode "F" / 60))) ;;
       (when (has_letter gcode "Z") then
          assign_with (set_retract_zlift_length (get_value gcode "Z"))) ;;
       (when (has_letter gcode "Q") then
          assign_with (set_retract_zlift_feedrate (get_value gcode "Q")))
     else if (m gcode =? 208)%Z && addressed e gcode then
       (when (has_letter gcode "S") then
          assign_with (set_retract_recover_length (get_value gcode "S"))) ;;
       (when (has_letter gcode "F") then
          assign_with (set_retract_recover_feedrate (get_value gcode "F" / 60)))
     else if (m gcode =? 221)%Z && enabled e then
       when (has_letter gcode "S") then
         assign_with (set_extruder_multiplier (get_value gcode "S" / 100))
     else if (m gcode =? 500)%Z || (m gcode =? 503)%Z then
       ret tt
     else if (m gcode =? 17)%Z || (m gcode =? 18)%Z || (m gcode =? 82)%Z
             || (m gcode =? 83)%Z || (m gcode =? 84)%Z then
       (* Mcodes to pass along to on_gcode_execute *)
       call (conveyor_append_gcode gcode)
     else ret tt) ;;
    ret true
  else if has_g gcode then
    if ((g gcode =? 92)%Z && has_letter gcode "E")
       || ((g gcode =? 90)%Z || (g gcode =? 91)%Z) then
      (* Gcodes to pass along to on_gcode_execute *)
      call (conveyor_append_gcode gcode) ;;
      ret true
    else if enabled e && (g gcode <? 4)%Z && has_letter gcode "E"
            && Qltb (Qabs (millimeters_of_travel gcode)) eps_travel then
      (* This is a SOLO move *)
      call (conveyor_append_gcode gcode) ;;
      call conveyor_queue_head_block ;;
      ret true
    else if enabled e && ((g gcode =? 10)%Z || (g gcode =? 11)%Z)
            && negb (has_letter gcode "L") then
      (* firmware retract command: check we are in the correct state *)
      valid <-
        (if (g gcode =? 10)%Z && negb (retracted e) then
           assign_with (set_retracted true) ;;
           assign_with (set_cancel_zlift_restore false) ;;
           ret true
         else if (g gcode =? 11)%Z && retracted e then
           assign_with (set_retracted false) ;;
           ret true
         else ret false) ;;
      if negb valid then ret false (* ignore duplicates *)
      else
        e1 <- this ;;
        (when (Qltb 0 (retract_zlift_length e1) && (g gcode =? 11)%Z
               && negb (cancel_zlift_restore e1)) then
           (* reverse zlift happens before unretract *)
           call (robot_relative_move_Z (- retract_zlift_length e1)
                                       (retract_zlift_feedrate e1))) ;;
        call (conveyor_append_gcode gcode) ;;
        call conveyor_queue_head_block ;;
        (when (Qltb 0 (retract_zlift_length e1) && (g gcode =? 10)%Z) then
           call (robot_relative_move_Z (retract_zlift_length e1)
                                       (retract_zlift_feedrate e1))) ;;
        ret true
    else if enabled e && retracted e && ((g gcode =? 0)%Z || (g gcode =? 1)%Z)
            && has_letter gcode "Z" then
      (* we cancel the zlift restore for the following G11 *)
      assign_with (set_cancel_zlift_restore true) ;;
      ret true
    else ret true
  else ret true.

(** The second statement: codes handled for the volumetric rate limiting,
    the ultrasonic generator and homing. *)
Definition received_modal (fuel : nat) (h : ExtruderH) (sc : Scan) (gcode : Gcode) : M unit :=
  e <- this ;;
  if has_m gcode then
    if (m gcode =? 50)%Z then assign_with (set_en_ultrasonic_pin true)
    else if (m gcode =? 51)%Z then assign_with (set_en_ultrasonic_pin false)
    else if (m gcode =? 82)%Z then assign_with (set_milestone_absolute_mode true)
    else if (m gcode =? 83)%Z then assign_with (set_milestone_absolute_mode false)
    else ret tt
  else if has_g gcode then
    if (g gcode =? 90)%Z then assign_with (set_milestone_absolute_mode true)
    else if (g gcode =? 91)%Z then assign_with (set_milestone_absolute_mode false)
    else if (g gcode =? 92)%Z then
      when (enabled e) then
        if has_letter gcode "E" then
          assign_with (set_milestone_last_position (get_value gcode "E"))
        else
          when (get_num_args gcode =? 0)%nat then
            assign_with (set_milestone_last_position 0)
    else if (g gcode =? 28)%Z then
      assign_with (set_current_angle 0) ;;
      (when (has_letter gcode "E") then (do_home fuel h sc ;; ret tt)) ;;
      assign_with (set_target_position 0) ;;
      assign_with (set_current_position 0) ;;
      assign_with (set_target_angle 0) ;;
      assign_with (set_current_angle 0) ;;
      assign_with (set_unstepped_distance 0) ;;
      assign_with (set_travel_ratio 0) ;;
      assign_with (set_travel_distance 0) ;;
      assign_with (set_travel_angle 0) ;;
      assign_with (set_saved_current_position 0) ;;
      assign_with (set_saved_current_angle 0) ;;
      assign_with (set_current_position_optimize 0)
    else ret tt
  else ret tt.

Definition on_gcode_received (fuel : nat) (h : ExtruderH) (sc : Scan) (gcode : Gcode) : M unit :=
  continue <- received_command gcode ;;
  when continue then received_modal fuel h sc gcode.

(** ** Extruder::on_gcode_execute *)

Definition on_gcode_execute (h : ExtruderH) (k : Kernel) (gcode : Gcode) : M unit :=
  (* The mode is OFF by default, and SOLO or FOLLOW only if we need to extrude *)
  assign_with (set_mode OFF) ;;
  e <- this ;;
  if has_m gcode then
    if (m gcode =? 17)%Z then assign_with (set_en_pin false)
    else if (m gcode =? 18)%Z then assign_with (set_en_pin true)
    else if (m gcode =? 82)%Z then assign_with (set_absolute_mode true)
    else if (m gcode =? 83)%Z then assign_with (set_absolute_mode false)
    else if (m gcode =? 84)%Z then assign_with (set_en_pin true)
    else ret tt
  else if has_g gcode && ((g gcode =? 90)%Z || (g gcode =? 91)%Z) then
    assign_with (set_absolute_mode (g gcode =? 90)%Z)
  else
    when (has_g gcode && enabled e) then
      if (g gcode =? 92)%Z then
        (* G92: Reset extruder position *)
        if has_letter gcode "E" then
          a <- optimize_angle h (get_value gcode "E") ;;
          assign_with (set_current_angle a) ;;
          assign_with (fun e1 => set_target_angle (current_angle e1) e1) ;;
          assign_with (fun e1 =>
            set_current_position (angle_to_distance e1 (current_angle e1)) e1) ;;
          assign_with (fun e1 => set_target_position (current_position e1) e1) ;;
          assign_with (set_unstepped_distance 0)
        else
          when (get_num_args gcode =? 0)%nat then (
            assign_with (set_current_position 0) ;;
            assign_with (fun e1 => set_target_position (current_position e1) e1) ;;
            assign_with (set_current_angle 0) ;;
            assign_with (fun e1 => set_target_angle (current_angle e1) e1) ;;
            assign_with (set_unstepped_distance 0))
      else
        when (g gcode <=? 3)%Z then (
          (* Extrusion length from 'G' Gcode *)
          (when (has_letter gcode "E") then (
             angle <- optimize_angle h (get_value gcode "E") ;;
             e1 <- this ;;
             let extrusion_distance := angle_to_distance e1 angle in
             relative <-
               (if absolute_mode e1 then
                  assign_with (set_target_position extrusion_distance) ;;
                  assign_with (set_target_angle angle) ;;
                  ret (extrusion_distance - target_position e1)
                else
                  assign_with (set_target_position
                    (target_position e1 + extrusion_distance)) ;;
                  assign_with (set_target_angle (target_angle e1 + angle)) ;;
                  ret extrusion_distance) ;;
             (* If the robot is moving, we follow it's movement, otherwise, we move alone *)
             (if Qltb (Qabs (millimeters_of_travel gcode)) eps_travel then
                assign_with (set_mode SOLO)
              else
                assign_with (set_mode FOLLOW) ;;
                assign_with (set_travel_ratio
                  ((relative * volumetric_multiplier e1 * extruder_multiplier e1)
                   / millimeters_of_travel gcode))) ;;
             assign_with (set_en_pin false))) ;;
          (when (has_letter gcode "F") then (
             assign_with (set_feed_rate
               (get_value gcode "F" / seconds_per_minute k)) ;;
             e2 <- this ;;
             when (Qltb 0 (max_rate (stepper_motor e2))
                   && Qltb (max_rate (stepper_motor e2)) (feed_rate e2)) then
               assign_with (set_feed_rate (max_rate (stepper_motor e2))))))
.

Local Close Scope char_scope.

(** * Vocabulary of the properties *)

(** [k] is the position of the first least element of [l]. *)
Definition first_least (l : list Q) (k : nat) : Prop :=
  (k < length l)%nat
  /\ (forall j, (j < length l)%nat -> nth k l 0 <= nth j l 0)
  /\ (forall j, (j < k)%nat -> nth k l 0 < nth j l 0).

(** [k] is the position of the first greatest element of [l]. *)
Definition first_greatest (l : list Z) (k : nat) : Prop :=
  (k < length l)%nat
  /\ (forall j, (j < length l)%nat -> (nth j l 0 <= nth k l 0)%Z)
  /\ (forall j, (j < k)%nat -> (nth j l 0 < nth k l 0)%Z).

Definition Qsum (l : list Q) : Q := fold_right Qplus 0 l.

(** ** Event sequences *)

Inductive Event :=
| BlockBegin (block : Block)
| BlockEnd
| SpeedChange (argument : Argument)
| FinishedMove
| Execute (gcode : Gcode).

Definition deliver (h : ExtruderH) (k : Kernel) (ev : Event) : M unit :=
  match ev with
  | BlockBegin block => on_block_begin k block
  | BlockEnd => on_block_end
  | SpeedChange argument => on_speed_change k argument
  | FinishedMove => stepper_motor_finished_move 0 ;; ret tt
  | Execute gcode => on_gcode_execute h k gcode
  end.

Fixpoint deliver_all (h : ExtruderH) (k : Kernel) (evs : list Event) : M unit :=
  match evs with
  | [] => ret tt
  | ev :: evs' => deliver h k ev ;; deliver_all h k evs'
  end.

(** The blocks claimed ([take]) and released, in call order. *)
Definition taken (l : list Call) : list Block :=
  flat_map (fun c => match c with block_take b => [b] | _ => [] end) l.

Definition released (l : list Call) : list Block :=
  flat_map (fun c => match c with block_release b => [b] | _ => [] end) l.

(** The block the extruder holds a reference to. *)
Definition held (e : Extruder) : list Block :=
  match current_block e with Some b => [b] | None => [] end.

(** [on_block_begin] and [on_block_end] arrive only while no block is held:
    the move of a claimed block has finished, or the queue was flushed,
    before the block ends and before the next one begins. *)
Fixpoint orderly (h : ExtruderH) (k : Kernel) (evs : list Event) (e : Extruder) : bool :=
  match evs with
  | [] => true
  | ev :: evs' =>
      match ev with
      | BlockBegin _ | BlockEnd => negb (is_some (current_block e))
      | _ => true
      end && orderly h k evs' (after (deliver h k ev e))
  end.

(** What one event does to the claim bookkeeping. *)
Inductive Effect (ev : Event) (e : Extruder) (r : unit * Extruder * list Call) : Prop :=
| untouched :
    taken (calls r) = [] -> released (calls r) = [] ->
    current_block (after r) = current_block e -> Effect ev e r
| dropped :
    taken (calls r) = [] -> released (calls r) = [] ->
    current_block (after r) = None ->
    (ev = BlockEnd \/ exists b, ev = BlockBegin b) -> Effect ev e r
| claimed b :
    ev = BlockBegin b ->
    taken (calls r) = [b] -> released (calls r) = [] ->
    current_block (after r) = Some b -> Effect ev e r
| freed b :
    current_block e = Some b ->
    taken (calls r) = [] -> released (calls r) = [b] ->
    current_block (after r) = None -> Effect ev e r.

(** A computation that calls no collaborator and leaves [current_block]
    alone. *)
Definition quiet {A} (c : M A) : Prop :=
  forall e, calls (c e) = [] /\ current_block (after (c e)) = current_block e.

(** ** Steps and carry *)

(** Signed number of steps programmed into the stepper: forward moves count
    positive, backward moves negative. *)
Definition signed_steps (l : list Call) : Z :=
  fold_right (fun c acc =>
    match c with
    | stepper_move dir steps => ((if dir then steps else - steps) + acc)%Z
    | _ => acc
    end) 0%Z l.

(** One block with travel distance [d]: command processing leaves [d] in
    [travel_distance], then the block begins. *)
Definition travel_block (k : Kernel) (d : Q) (block : Block) : M unit :=
  assign_with (set_travel_distance d) ;;
  on_block_begin k block.

Fixpoint travel_blocks (k : Kernel) (ds : list (Q * Block)) : M unit :=
  match ds with
  | [] => ret tt
  | (d, block) :: ds' => travel_block k d block ;; travel_blocks k ds'
  end.

(** The step count and the carry [on_block_begin] computes. *)
Definition steps_of (e : Extruder) : Z :=
  Z.abs (floorf (steps_per_millimeter e
                 * (travel_distance e + unstepped_distance e))).

Definition carry_of (e : Extruder) : Q :=
  if Qltb 0 (travel_distance e) then
    unstepped_distance e
    + (travel_distance e - inject_Z (steps_of e) / steps_per_millimeter e)
  else
    unstepped_distance e
    + (travel_distance e + inject_Z (steps_of e) / steps_per_millimeter e).

(** ** Homing scans *)

(** The samples the scan collects when the kernel is never halted. *)
Fixpoint sweep (fuel : nat) (h : ExtruderH) (raw : nat -> Z)
    (current_search_angle : Q) (sensor_value : list Z) : option (list Z) :=
  if Qle_bool current_search_angle (DEGREE_OF_CYCLE h) then
    match fuel with
    | O => None
    | S fuel' =>
        sweep fuel' h raw (current_search_angle + RAW_SEARCH_ANGLE h)
          (sensor_value ++ [raw (length sensor_value)])
    end
  else Some sensor_value.

Definition never_halted (raw : nat -> Z) : Scan :=
  {| raw_value := raw; halted_during := fun _ => false |}.

(** A sensor whose reading peaks at the sample of index 18. *)
Definition peak_at_18 (i : nat) : Z := if (i =? 18)%nat then 100 else 7.

(** ** Single precision

    The float operations of the places where rounding could matter, on IEEE
    binary32 ([SpecFloat] with a precision of 24 bits), to compare with the
    rational model. *)

Module Binary32.

Definition prec : Z := 24.
Definition emax : Z := 128.

Definition of_Z (z : Z) : spec_float := binary_normalize prec emax z 0 false.
Definition add : spec_float -> spec_float -> spec_float := SFadd prec emax.
Definition mul : spec_float -> spec_float -> spec_float := SFmul prec emax.
Definition div : spec_float -> spec_float -> spec_float := SFdiv prec emax.

(** The rational a finite float stands for. *)
Definition to_Q (f : spec_float) : Q :=
  match f with
  | S754_finite s m e => (if s then -1 else 1) * inject_Z (Zpos m) * 2 ^ e
  | _ => 0
  end.

(** The limit statement of [optimize_angle] on single precision floats. *)
Definition limit_angle (max min input_angle : spec_float) : spec_float :=
  if SFltb max input_angle || SFltb input_angle min
  then mul (div input_angle max) max
  else input_angle.

(** The number of rounds of the scan loop of [do_home]. *)
Fixpoint scan_rounds (fuel : nat) (cycle increment current : spec_float) : option nat :=
  if SFleb current cycle then
    match fuel with
    | O => None
    | S fuel' => option_map S (scan_rounds fuel' cycle increment (add current increment))
    end
  else Some O.

(** *** The angle optimizer and the step carry on single precision

    The functions whose results depend on rounding, once more on binary32:
    every operation is the correctly rounded one of [SpecFloat], comparisons
    are those of IEEE 754 (false on a NaN), and literals are converted as
    the compiler converts them. *)

Definition sub : spec_float -> spec_float -> spec_float := SFsub prec emax.



(** [floorf] *)
Definition floorf (x : spec_float) : spec_float :=
  match x with
  | S754_finite s m e =>
      if (0 <=? e)%Z then x
      else of_Z (cond_Zopp s (Z.pos m) / 2 ^ (- e))
  | _ => x
  end.

(** [(int) x]: the integer part, undefined outside the range of [int]. *)
Definition to_int (x : spec_float) : option Z :=
  match x with
  | S754_zero _ => Some 0%Z
  | S754_finite s m e =>
      let z := (if (0 <=? e)%Z then cond_Zopp s (Z.pos m) * 2 ^ e
                else Z.quot (cond_Zopp s (Z.pos m)) (2 ^ (- e)))%Z in
      if ((- 2 ^ 31 <=? z) && (z <? 2 ^ 31))%Z then Some z else None
  | _ => None
  end.

(** [abs] on [int], undefined at [INT_MIN]. *)
Definition abs_int (z : Z) : option Z :=
  if (z =? - 2 ^ 31)%Z then None else Some (Z.abs z).

(** The float members of the object that the angle optimizer and the
    block handshake work on, with the two flags that guard the handshake. *)
Record Extruder := {
  enabled : bool;
  mode : Mode;
  steps_per_millimeter : spec_float;
  steps_per_angle : spec_float;
  previous_angle : spec_float;
  travel_distance : spec_float;
  unstepped_distance : spec_float;
  current_position : spec_float;
  current_angle : spec_float
}.

Definition set_travel_distance (v : spec_float) (e : Extruder) : Extruder :=
  {| enabled := enabled e; mode := mode e;
     steps_per_millimeter := steps_per_millimeter e;
     steps_per_angle := steps_per_angle e;
     previous_angle := previous_angle e; travel_distance := v;
     unstepped_distance := unstepped_distance e;
     current_position := current_position e;
     current_angle := current_angle e |}.

Definition set_previous_angle (v : spec_float) (e : Extruder) : Extruder :=
  {| enabled := enabled e; mode := mode e;
     steps_per_millimeter := steps_per_millimeter e;
     steps_per_angle := steps_per_angle e;
     previous_angle := v; travel_distance := travel_distance e;
     unstepped_distance := unstepped_distance e;
     current_position := current_position e;
     current_angle := current_angle e |}.

Definition set_unstepped_distance (v : spec_float) (e : Extruder) : Extruder :=
  {| enabled := enabled e; mode := mode e;
     steps_per_millimeter := steps_per_millimeter e;
     steps_per_angle := steps_per_angle e;
     previous_angle := previous_angle e; travel_distance := travel_distance e;
     unstepped_distance := v;
     current_position := current_position e;
     current_angle := current_angle e |}.

Definition set_current_position (v : spec_float) (e : Extruder) : Extruder :=
  {| enabled := enabled e; mode := mode e;
     steps_per_millimeter := steps_per_millimeter e;
     steps_per_angle := steps_per_angle e;
     previous_angle := previous_angle e; travel_distance := travel_distance e;
     unstepped_distance := unstepped_distance e;
     current_position := v;
     current_angle := current_angle e |}.

Definition set_current_angle (v : spec_float) (e : Extruder) : Extruder :=
  {| enabled := enabled e; mode := mode e;
     steps_per_millimeter := steps_per_millimeter e;
     steps_per_angle := steps_per_angle e;
     previous_angle := previous_angle e; travel_distance := travel_distance e;
     unstepped_distance := unstepped_distance e;
     current_position := current_position e;
     current_angle := v |}.

Definition distance_to_angle (e : Extruder) (dist : spec_float) : spec_float :=
  div (mul dist (steps_per_millimeter e)) (steps_per_angle e).

Definition angle_to_distance (e : Extruder) (angle : spec_float) : spec_float :=
  div (mul angle (steps_per_angle e)) (steps_per_millimeter e).

Definition getNextEdgeAngle (angle : spec_float) : spec_float :=
  let resAngle := add (of_Z 180) angle in
  if SFleb (of_Z 360) resAngle then sub resAngle (of_Z 360) else resAngle.

(** [std::min_element] with the [<] of the floats. *)
Fixpoint min_element_from (best : spec_float) (best_i i : nat)
    (l : list spec_float) : nat :=
  match l with
  | [] => best_i
  | x :: l' =>
      if SFltb x best then min_element_from x i (S i) l'
      else min_element_from best best_i (S i) l'
  end.

Definition min_element (l : list spec_float) : nat :=
  match l with
  | [] => 0%nat
  | x :: l' => min_element_from x 0%nat 1%nat l'
  end.

(** The vector [rotation_distance] after the four [push_back] calls. *)
Definition rotation_distance (previous input_angle : spec_float) : list spec_float :=
  [ SFabs (sub previous input_angle);
    SFabs (sub (of_Z 360) (SFabs (sub previous input_angle)));
    SFabs (sub (getNextEdgeAngle previous) input_angle);
    SFabs (sub (of_Z 360) (SFabs (sub (getNextEdgeAngle previous) input_angle))) ].

(** [Extruder::optimize_angle], with the two limits of the header as
    arguments. *)
Definition optimize_angle (max min input_angle : spec_float) (e : Extruder)
    : spec_float * Extruder :=
  let input_angle :=
    if SFltb input_angle (of_Z 0) then add (of_Z 360) input_angle
    else input_angle in
  if SFeqb input_angle (previous_angle e) then
    (of_Z 0, set_travel_distance (of_Z 0) e)
  else
    let input_angle := limit_angle max min input_angle in
    let rotation_distance := rotation_distance (previous_angle e) input_angle in
    let diff_case := min_element rotation_distance in
    if SFeqb (nth diff_case rotation_distance (of_Z 0)) (of_Z 0) then
      (of_Z 0, set_travel_distance (of_Z 0) e)
    else
      let e :=
        match diff_case_of diff_case with
        | Some FIRST_CASE =>
            set_travel_distance
              (angle_to_distance e (sub input_angle (previous_angle e))) e
        | Some SECOND_CASE =>
            if SFltb (sub (previous_angle e) input_angle) (of_Z 0) then
              set_travel_distance
                (mul (angle_to_distance e (nth diff_case rotation_distance (of_Z 0)))
                     (of_Z (-1))) e
            else
              set_travel_distance
                (angle_to_distance e (nth diff_case rotation_distance (of_Z 0))) e
        | Some THIRD_CASE =>
            set_travel_distance
              (angle_to_distance e
                 (sub input_angle (getNextEdgeAngle (previous_angle e)))) e
        | Some FOURTH_CASE =>
            if SFltb (sub (getNextEdgeAngle (previous_angle e)) input_angle)
                     (of_Z 0) then
              set_travel_distance
                (mul (angle_to_distance e (nth diff_case rotation_distance (of_Z 0)))
                     (of_Z (-1))) e
            else
              set_travel_distance
                (angle_to_distance e (nth diff_case rotation_distance (of_Z 0))) e
        | None => e
        end in
      (of_Z 0, set_previous_angle input_angle e).

(** The arithmetic of [Extruder::on_block_begin]: the position and the
    angle, the step count and the carry.  The result is the object and the
    move given to the stepper, if any (inside [None]: no steps to take;
    outside [None]: the conversion to [int] is undefined).  The block and
    the stepper are those of the rational model. *)
Definition on_block_begin (e : Extruder) : option (Extruder * option (bool * Z)) :=
  if negb (enabled e) then Some (e, None)
  else if Mode_eqb (mode e) OFF then Some (e, None)
  else
    (* common for both FOLLOW and SOLO *)
    let e := set_current_position (add (current_position e) (travel_distance e)) e in
    let e := set_current_angle
               (add (current_angle e) (distance_to_angle e (travel_distance e))) e in
    let e :=
      if SFltb (of_Z 360) (current_angle e) then
        let e := set_current_angle (sub (current_angle e) (of_Z 360)) e in
        set_current_position (angle_to_distance e (current_angle e)) e
      else e in
    (* round down, we take care of the fractional part next time *)
    match to_int (floorf (mul (steps_per_millimeter e)
                              (add (travel_distance e) (unstepped_distance e)))) with
    | None => None
    | Some z =>
        match abs_int z with
        | None => None
        | Some steps_to_step =>
            (* accumulate the fractional part *)
            let e :=
              if SFltb (of_Z 0) (travel_distance e) then
                set_unstepped_distance
                  (add (unstepped_distance e)
                       (sub (travel_distance e)
                            (div (of_Z steps_to_step) (steps_per_millimeter e)))) e
              else
                set_unstepped_distance
                  (add (unstepped_distance e)
                       (add (travel_distance e)
                            (div (of_Z steps_to_step) (steps_per_millimeter e)))) e in
            if negb (steps_to_step =? 0)%Z then
              Some (e, Some (SFltb (of_Z 0) (travel_distance e), steps_to_step))
            else Some (e, None)
        end
    end.

(** [on_block_begin] for each travel distance of [ds] in turn, with the
    moves given to the stepper. *)
Fixpoint travel_blocks (ds : list spec_float) (e : Extruder)
    : option (list (option (bool * Z)) * Extruder) :=
  match ds with
  | [] => Some ([], e)
  | d :: ds' =>
      match on_block_begin (set_travel_distance d e) with
      | None => None
      | Some (e1, move) =>
          match travel_blocks ds' e1 with
          | None => None
          | Some (moves, e') => Some (move :: moves, e')
          end
      end
  end.

(** [k] is the position of the first least element of [l] in the order of
    the floats: no element is less than it, and none before it is less than
    or equal to it. *)
Definition first_least (l : list spec_float) (k : nat) : Prop :=
  (k < length l)%nat
  /\ (forall j, (j < length l)%nat ->
        SFltb (nth j l S754_nan) (nth k l S754_nan) = false)
  /\ (forall j, (j < k)%nat ->
        SFleb (nth j l S754_nan) (nth k l S754_nan) = false).

End Binary32.

(** ** A bench configuration

    The configuration of the scenarios: 10 steps per millimeter, 5 steps per
    degree, no filament diameter; limits 0 and 360, a scan of 360 degrees in
    increments of 10. *)

Definition bench_header : ExtruderH :=
  {| MAX_ANGLE_LIMIT := 360; MIN_ANGLE_LIMIT := 0;
     DEGREE_OF_CYCLE := 360; RAW_SEARCH_ANGLE := 10 |}.

Definition bench_kernel : Kernel :=
  {| acceleration_ticks_per_second := 1000;
     trapezoid_adjusted_rate := 2000;
     seconds_per_minute := 60 |}.

Definition bench_motor : StepperMotor :=
  {| moving := false; direction := false; steps_to_move := 0;
     steps_per_second := 0; max_rate := 1000; moved_last_block := false;
     motor_enabled := false |}.

(** The object after the constructor, [on_config_reload] with the bench
    values and [on_module_loaded]. *)
Definition bench : Extruder :=
  {| enabled := true; identifier := 0; mode := OFF;
     absolute_mode := true; milestone_absolute_mode := true;
     milestone_last_position := 0;
     retracted := false; cancel_zlift_restore := false;
     current_position := 0; target_position := 0;
     current_angle := 0; target_angle := 0; previous_angle := 0;
     travel_distance := 0; travel_ratio := 0; travel_angle := 0;
     unstepped_distance := 0;
     saved_current_position := 0; saved_current_angle := 0;
     current_position_optimize := 0;
     steps_per_millimeter := 10; steps_per_angle := 5;
     filament_diameter := 0; volumetric_multiplier := 1;
     extruder_multiplier := 1;
     acceleration := 1000; feed_rate := 1000; max_volumetric_rate := 0;
     retract_length := 3; retract_feedrate := 45;
     retract_recover_length := 0; retract_recover_feedrate := 8;
     retract_zlift_length := 0; retract_zlift_feedrate := 6000;
     current_block := None; stepper_motor := bench_motor;
     en_pin := false; en_ultrasonic_pin := false |}.

Definition block_1 : Block := {| block_id := 1; steps_event_count := 400 |}.
Definition block_2 : Block := {| block_id := 2; steps_event_count := 400 |}.

Definition G (n : Z) (ws : list (ascii * Q)) (travel : Q) : Gcode :=
  {| has_m := false; m := 0; has_g := true; g := n; subcode := 0;
     words := ws; millimeters_of_travel := travel |}.

(** The float members of the bench extruder, in SOLO mode. *)
Definition bench32 : Binary32.Extruder :=
  {| Binary32.enabled := true; Binary32.mode := SOLO;
     Binary32.steps_per_millimeter := Binary32.of_Z 10;
     Binary32.steps_per_angle := Binary32.of_Z 5;
     Binary32.previous_angle := Binary32.of_Z 0;
     Binary32.travel_distance := Binary32.of_Z 0;
     Binary32.unstepped_distance := Binary32.of_Z 0;
     Binary32.current_position := Binary32.of_Z 0;
     Binary32.current_angle := Binary32.of_Z 0 |}.

(** [-1e-10F] and [2e-10F]. *)
Definition minus_1e_10 : spec_float := S754_finite true 14411519 (-57).
Definition two_e_10 : spec_float := S754_finite false 14411519 (-56).

(** * Further member functions *)

(** ** Extruder::check_max_speeds

    Checks a move of [target] (absolute or relative, by
    [milestone_absolute_mode]) at [isecs] inverted seconds against the
    maximum volumetric rate and the maximum speed of the stepper, and returns
    the rate modifier. *)

Definition check_max_speeds (target isecs : Q) : M Q :=
  e <- this ;;
  (* get change in E (may be mm or mm^3) *)
  delta <-
    (if milestone_absolute_mode e then
       assign_with (set_milestone_last_position target) ;;
       ret (Qabs (target - milestone_last_position e))
     else
       assign_with (set_milestone_last_position
                      (milestone_last_position e + target)) ;;
       ret target) ;;
  let volumetric :=
    if Qltb 0 (max_volumetric_rate e)
       && Qltb eps_diameter (filament_diameter e) then
      (* volumetric enabled and check for volumetric rate *)
      let v := delta * isecs in
      if Qltb (max_volumetric_rate e) v then
        (max_volumetric_rate e / v, isecs * (max_volumetric_rate e / v))
      else (1, isecs)
    else (1, isecs) in
  let rm := fst volumetric in
  let isecs := snd volumetric in
  (* check for max speed as well *)
  let max_speed := max_rate (stepper_motor e) in
  if Qltb 0 max_speed then
    let delta :=
      if Qltb eps_diameter (filament_diameter e)
      then delta * volumetric_multiplier e else delta in
    let v := delta * isecs in
    let sm := if Qltb max_speed v then 1 * (max_speed / v) else 1 in
    ret (rm * sm)
  else ret rm.

(** Modelled from the spec: the public data request
    ([PublicDataRequest.h] is not among the sources): whether it starts with
    the extruder checksum, its second element, the two floats its data
    pointer leads to, and the taken mark. *)
Inductive PublicDataKey :=
| target_checksum | save_state_checksum | restore_state_checksum | other_checksum.

Record PublicDataRequest := {
  starts_with_extruder : bool;
  second_element : PublicDataKey;
  data : Q * Q;
  is_taken : bool
}.

Definition set_taken (pdr : PublicDataRequest) : PublicDataRequest :=
  {| starts_with_extruder := starts_with_extruder pdr;
     second_element := second_element pdr;
     data := data pdr; is_taken := true |}.

Definition set_data_1 (v : Q) (pdr : PublicDataRequest) : PublicDataRequest :=
  {| starts_with_extruder := starts_with_extruder pdr;
     second_element := second_element pdr;
     data := (fst (data pdr), v); is_taken := is_taken pdr |}.

(** ** Extruder::on_set_public_data

    The field [saved_absolute_mode], which no other function touches, is
    passed beside the object and returned with the request. *)
Definition on_set_public_data (pdr : PublicDataRequest) (saved_absolute_mode : bool)
    : M (PublicDataRequest * bool) :=
  e <- this ;;
  if negb (starts_with_extruder pdr) then ret (pdr, saved_absolute_mode)
  else
    match second_element pdr with
    | target_checksum =>
        (* disabled extruders do not reply *)
        if negb (enabled e) then ret (pdr, saved_absolute_mode)
        else
          rm <- check_max_speeds (fst (data pdr)) (snd (data pdr)) ;;
          ret (set_taken (set_data_1 rm pdr), saved_absolute_mode)
    | save_state_checksum =>
        assign_with (set_saved_current_position (current_position e)) ;;
        ret (set_taken pdr, absolute_mode e)
    | restore_state_checksum =>
        assign_with (set_current_position (saved_current_position e)) ;;
        assign_with (set_milestone_last_position (saved_current_position e)) ;;
        assign_with (set_absolute_mode saved_absolute_mode) ;;
        assign_with (set_milestone_absolute_mode saved_absolute_mode) ;;
        ret (set_taken pdr, saved_absolute_mode)
    | other_checksum => ret (pdr, saved_absolute_mode)
    end.

(** ** Extruder::acceleration_tick, called [n] times in a row *)


(** ** Vocabulary of the further properties *)

(** M codes that set the extruder's settings and may name an extruder with
    a P word. *)
Definition settings_codes : list Z := [92; 200; 203; 204; 207; 208]%Z.

(** ** More of the bench *)

Definition set_enabled : bool -> Extruder -> Extruder := ltac:(assign enabled).

Definition M_code (n : Z) (ws : list (ascii * Q)) : Gcode :=
  {| has_m := true; m := n; has_g := false; g := 0; subcode := 0;
     words := ws; millimeters_of_travel := 0 |}.

(** The bench extruder with a SOLO move of 45 pending. *)
Definition bench_solo : Extruder := set_mode SOLO (set_travel_distance 45 bench).


Definition save_request : PublicDataRequest :=
  {| starts_with_extruder := true; second_element := save_state_checksum;
     data := (0, 0); is_taken := false |}.

Definition restore_request : PublicDataRequest :=
  {| starts_with_extruder := true; second_element := restore_state_checksum;
     data := (0, 0); is_taken := false |}.

(** * Proofs *)

(** ** Comparisons and the angle helpers *)

Lemma Qltb_lt (a b : Q) : Qltb a b = true <-> a < b.
Proof.
  unfold Qltb. rewrite negb_true_iff.
  split; intro H.
  - apply Qnot_le_lt. intro Hle. apply Qle_bool_iff in Hle. congruence.
  - destruct (Qle_bool b a) eqn:E; [|reflexivity].
    apply Qle_bool_iff in E. lra.
Qed.

Lemma Qltb_ge (a b : Q) : Qltb a b = false <-> b <= a.
Proof.
  unfold Qltb. rewrite negb_false_iff. apply Qle_bool_iff.
Qed.

Lemma Qeq_bool_false (a b : Q) : Qeq_bool a b = false <-> ~ a == b.
Proof.
  split.
  - apply Qeq_bool_neq.
  - intro H. destruct (Qeq_bool a b) eqn:E; [|reflexivity].
    apply Qeq_bool_iff in E. contradiction.
Qed.

Lemma normalize_angle_nonneg (a : Q) : 0 <= a -> normalize_angle a = a.
Proof.
  intro H. unfold normalize_angle.
  apply Qltb_ge in H. now rewrite H.
Qed.

Lemma normalize_angle_neg (a : Q) : a < 0 -> normalize_angle a = 360 + a.
Proof.
  intro H. unfold normalize_angle.
  apply Qltb_lt in H. now rewrite H.
Qed.

Lemma limit_angle_same (h : ExtruderH) (a : Q) :
  ~ MAX_ANGLE_LIMIT h == 0 -> limit_angle h a == a.
Proof.
  intro H. unfold limit_angle.
  destruct (_ || _); [|reflexivity].
  field. exact H.
Qed.

Lemma getNextEdgeAngle_range (a : Q) :
  0 <= a < 360 -> 0 <= getNextEdgeAngle a < 360.
Proof.
  intros [H0 H1]. unfold getNextEdgeAngle.
  destruct (Qle_bool 360 (180 + a)) eqn:E.
  - apply Qle_bool_iff in E. lra.
  - assert (~ 360 <= 180 + a) by (intro X; apply Qle_bool_iff in X; congruence).
    lra.
Qed.

Lemma min_element_from_spec (l : list Q) :
  forall best best_i i,
    let r := min_element_from best best_i i l in
    (r = best_i /\ forall j, (j < length l)%nat -> best <= nth j l 0)
    \/ exists j, r = (i + j)%nat /\ (j < length l)%nat /\ nth j l 0 < best
         /\ (forall j', (j' < length l)%nat -> nth j l 0 <= nth j' l 0)
         /\ (forall j', (j' < j)%nat -> nth j l 0 < nth j' l 0).
Proof.
  induction l as [|x l IH]; intros best best_i i; simpl.
  - left. split; [reflexivity|]. intros j Hj. lia.
  - destruct (Qltb x best) eqn:E.
    + apply Qltb_lt in E. right.
      destruct (IH x i (S i)) as [[Hr Hall] | [j [Hr [Hj [Hlt [Hmin Hfirst]]]]]].
      * exists 0%nat. rewrite Hr. simpl.
        repeat split; try lia; try assumption.
        intros [|j'] Hj'; [lra|]. apply Hall. lia.
      * exists (S j). rewrite Hr. simpl.
        repeat split; try lia; try lra.
        -- intros [|j'] Hj'; [lra|]. apply Hmin. lia.
        -- intros [|j'] Hj'; [lra|]. apply Hfirst. lia.
    + apply Qltb_ge in E.
      destruct (IH best best_i (S i)) as [[Hr Hall] | [j [Hr [Hj [Hlt [Hmin Hfirst]]]]]].
      * left. split; [assumption|].
        intros [|j'] Hj'; [assumption|]. apply Hall. lia.
      * right. exists (S j). rewrite Hr. simpl.
        repeat split; try lia; try lra.
        -- intros [|j'] Hj'; [lra|]. apply Hmin. lia.
        -- intros [|j'] Hj'; [lra|]. apply Hfirst. lia.
Qed.

Lemma min_element_first_least (l : list Q) :
  l <> [] -> first_least l (min_element l).
Proof.
  destruct l as [|x l]; [congruence|]. intros _.
  unfold min_element, first_least.
  destruct (min_element_from_spec l x 0%nat 1%nat)
    as [[Hr Hall] | [j [Hr [Hj [Hlt [Hmin Hfirst]]]]]]; rewrite Hr; simpl.
  - repeat split; try lia.
    intros [|j] Hj; [lra|]. apply Hall. lia.
  - repeat split; try lia.
    + intros [|j'] Hj'; [lra|]. apply Hmin. lia.
    + intros [|j'] Hj'; [lra|]. apply Hfirst. lia.
Qed.

(** ** Travel assigned by optimize_angle *)

Section Optimizer.

Variable h : ExtruderH.
Hypothesis MAX_ANGLE_LIMIT_nonzero : ~ MAX_ANGLE_LIMIT h == 0.

(** C7.  For an angle in [0,360) equal to the stored previous angle,
    [optimize_angle] returns zero, sets [travel_distance] to zero and leaves
    [previous_angle], and every other field, as it was. *)
Theorem optimize_angle_same_angle (e : Extruder) (input_angle : Q) :
  0 <= input_angle < 360 ->
  input_angle == previous_angle e ->
  let r := optimize_angle h input_angle e in
  result r = 0
  /\ travel_distance (after r) = 0
  /\ previous_angle (after r) = previous_angle e
  /\ after r = set_travel_distance 0 e
  /\ calls r = [].
Proof.
  intros Hi Heq r. subst r.
  unfold optimize_angle, bind, this, assign_with, ret, result, after, calls.
  rewrite normalize_angle_nonneg by apply Hi.
  apply Qeq_bool_iff in Heq. rewrite Heq.
  cbn. repeat split; reflexivity.
Qed.

Lemma getNextEdgeAngle_differs (a : Q) : ~ getNextEdgeAngle a == a.
Proof.
  unfold getNextEdgeAngle. destruct (Qle_bool 360 (180 + a)); lra.
Qed.

Lemma rotation_distance_nonneg (p a : Q) (j : nat) :
  0 <= nth j (rotation_distance p a) 0.
Proof.
  unfold rotation_distance.
  destruct j as [|[|[|[|j]]]]; cbn [nth]; try apply Qabs_nonneg.
  destruct j; apply Qle_refl.
Qed.

(** C10.  For a previous angle in [0,360), an input antipodal to it
    ([getNextEdgeAngle] of it) makes the third candidate zero; the early
    return is taken: [travel_distance] is zero and [previous_angle] is left
    unchanged.  A commanded move of 180 degrees produces no travel. *)
Theorem optimize_angle_antipodal (e : Extruder) :
  0 <= previous_angle e < 360 ->
  let input_angle := getNextEdgeAngle (previous_angle e) in
  let r := optimize_angle h input_angle e in
  nth 2 (rotation_distance (previous_angle e)
           (limit_angle h (normalize_angle input_angle))) 0 == 0
  /\ result r = 0
  /\ travel_distance (after r) = 0
  /\ previous_angle (after r) = previous_angle e
  /\ after r = set_travel_distance 0 e.
Proof.
  intros Hp input_angle r.
  pose proof (getNextEdgeAngle_range _ Hp) as Hi. fold input_angle in Hi.
  assert (Hnorm : normalize_angle input_angle = input_angle)
    by (apply normalize_angle_nonneg, Hi).
  assert (Hthird : nth 2 (rotation_distance (previous_angle e)
                     (limit_angle h (normalize_angle input_angle))) 0 == 0).
  { rewrite Hnorm. cbn [nth rotation_distance]. fold input_angle.
    rewrite limit_angle_same by assumption.
    setoid_replace (input_angle - input_angle) with 0 by ring. reflexivity. }
  split; [exact Hthird|].
  subst r. unfold optimize_angle, bind, this, assign_with, ret, result, after.
  rewrite Hnorm in *.
  assert (Hne : Qeq_bool input_angle (previous_angle e) = false)
    by (apply Qeq_bool_false, getNextEdgeAngle_differs).
  rewrite Hne.
  set (rd := rotation_distance (previous_angle e) (limit_angle h input_angle)) in *.
  assert (Hz : nth (min_element rd) rd 0 == 0).
  { destruct (min_element_first_least rd) as (_ & Hmin & _); [discriminate|].
    specialize (Hmin 2%nat ltac:(cbn; lia)).
    pose proof (rotation_distance_nonneg (previous_angle e)
                  (limit_angle h input_angle) (min_element rd)) as H0.
    fold rd in H0. lra. }
  apply Qeq_bool_iff in Hz. rewrite Hz.
  cbn. repeat split; reflexivity.
Qed.

End Optimizer.

Lemma optimize_angle_returns_zero (h : ExtruderH) (e : Extruder) (input_angle : Q) :
  result (optimize_angle h input_angle e) = 0.
Proof.
  unfold optimize_angle, bind, this, assign_with, ret, result.
  destruct (Qeq_bool _ _); [reflexivity|].
  destruct (Qeq_bool _ _); [reflexivity|].
  destruct (diff_case_of _) as [[| | |]|]; try reflexivity;
    destruct (Qltb _ _); reflexivity.
Qed.

(** ** Claims and releases of blocks *)

Ltac run_monad :=
  cbv beta iota zeta delta
    [bind ret this assign_with call on_stepper stepper_motor_move
     result after calls fst snd app].

Ltac fields :=
  cbn [enabled identifier mode absolute_mode milestone_absolute_mode
       milestone_last_position retracted cancel_zlift_restore current_position
       target_position current_angle target_angle previous_angle
       travel_distance travel_ratio travel_angle unstepped_distance
       saved_current_position saved_current_angle current_position_optimize
       steps_per_millimeter steps_per_angle filament_diameter
       volumetric_multiplier extruder_multiplier acceleration feed_rate
       max_volumetric_rate retract_length retract_feedrate
       retract_recover_length retract_recover_feedrate retract_zlift_length
       retract_zlift_feedrate current_block stepper_motor en_pin
       en_ultrasonic_pin
       set_mode set_absolute_mode set_milestone_absolute_mode
       set_milestone_last_position set_retracted set_cancel_zlift_restore
       set_current_position set_target_position set_current_angle
       set_target_angle set_previous_angle set_travel_distance
       set_travel_ratio set_travel_angle set_unstepped_distance
       set_saved_current_position set_saved_current_angle
       set_current_position_optimize set_steps_per_millimeter
       set_filament_diameter set_volumetric_multiplier
       set_extruder_multiplier set_acceleration set_feed_rate
       set_max_volumetric_rate set_retract_length set_retract_feedrate
       set_retract_recover_length set_retract_recover_feedrate
       set_retract_zlift_length set_retract_zlift_feedrate set_current_block
       set_stepper_motor set_en_pin set_en_ultrasonic_pin
       moving direction steps_to_move steps_per_second max_rate
       moved_last_block motor_enabled
       motor_set_speed motor_set_max_rate motor_set_moved_last_block
       motor_enable motor_set_moving motor_move
       fst snd app].

Ltac branches :=
  repeat match goal with
         | |- context [if ?c then _ else _] => destruct c eqn:?
         | |- context [match current_block ?e with _ => _ end] =>
             destruct (current_block e) eqn:?
         | |- context [match ?a with null => _ | non_null => _ end] =>
             destruct a
         end.

Lemma on_block_begin_effect k block e :
  Effect (BlockBegin block) e (on_block_begin k block e).
Proof.
  unfold on_block_begin, on_speed_change. run_monad. fields.
  branches; run_monad; fields; try discriminate.
  all: try (apply untouched; reflexivity).
  all: try (apply dropped; [reflexivity..| right; eexists; reflexivity]).
  all: try (eapply claimed; reflexivity).
Qed.

Lemma on_block_end_effect e : Effect BlockEnd e (on_block_end e).
Proof.
  unfold on_block_end. run_monad.
  branches; run_monad; fields.
  - apply untouched; reflexivity.
  - apply dropped; auto.
Qed.

Lemma on_speed_change_effect k a e :
  Effect (SpeedChange a) e (on_speed_change k a e).
Proof.
  unfold on_speed_change. run_monad.
  branches; run_monad; fields; try (apply untouched; now auto).
  eapply freed; eauto.
Qed.

Lemma stepper_motor_finished_move_effect e :
  Effect FinishedMove e ((stepper_motor_finished_move 0 ;; ret tt) e).
Proof.
  unfold stepper_motor_finished_move. run_monad.
  branches; run_monad; fields; try (apply untouched; now auto).
  eapply freed; eauto.
Qed.

(** [optimize_angle] and [on_gcode_execute] make no call and leave
    [current_block] alone. *)

Lemma quiet_ret {A} (a : A) : quiet (ret a).
Proof. intro e. split; reflexivity. Qed.

Lemma quiet_this : quiet this.
Proof. intro e. split; reflexivity. Qed.

Lemma quiet_bind {A B} (c : M A) (f : A -> M B) :
  quiet c -> (forall a, quiet (f a)) -> quiet (bind c f).
Proof.
  intros Hc Hf e. unfold bind.
  destruct (c e) as [[a e1] l1] eqn:E1.
  destruct (f a e1) as [[b e2] l2] eqn:E2.
  pose proof (Hc e) as [Hl1 Hb1]. rewrite E1 in Hl1, Hb1.
  pose proof (Hf a e1) as [Hl2 Hb2]. rewrite E2 in Hl2, Hb2.
  unfold calls, after in *. cbn [fst snd] in *.
  subst l1 l2. split; [reflexivity|congruence].
Qed.

Lemma quiet_assign (f : Extruder -> Extruder) :
  (forall e, current_block (f e) = current_block e) -> quiet (assign_with f).
Proof. intros Hf e. split; [reflexivity|apply Hf]. Qed.

Lemma quiet_if {A} (b : bool) (c1 c2 : M A) :
  quiet c1 -> quiet c2 -> quiet (if b then c1 else c2).
Proof. destruct b; auto. Qed.

Ltac quiet_step :=
  match goal with
  | |- quiet (ret _) => apply quiet_ret
  | |- quiet this => apply quiet_this
  | |- quiet (bind _ _) => apply quiet_bind; [|intro]
  | |- quiet (assign_with _) => apply quiet_assign; intro; reflexivity
  | |- quiet (if _ then _ else _) => apply quiet_if
  | |- quiet (match ?x with _ => _ end) => destruct x
  end.

Lemma optimize_angle_quiet h a : quiet (optimize_angle h a).
Proof. unfold optimize_angle. repeat quiet_step. Qed.

Lemma on_gcode_execute_quiet h k gcode : quiet (on_gcode_execute h k gcode).
Proof.
  unfold on_gcode_execute.
  repeat (quiet_step || apply optimize_angle_quiet).
Qed.

Lemma deliver_effect h k ev e : Effect ev e (deliver h k ev e).
Proof.
  destruct ev; cbn [deliver].
  - apply on_block_begin_effect.
  - apply on_block_end_effect.
  - apply on_speed_change_effect.
  - apply stepper_motor_finished_move_effect.
  - destruct (on_gcode_execute_quiet h k gcode e) as [Hc Hb].
    apply untouched; [now rewrite Hc..|assumption].
Qed.

Lemma taken_app l1 l2 : taken (l1 ++ l2) = taken l1 ++ taken l2.
Proof. unfold taken. apply flat_map_app. Qed.

Lemma released_app l1 l2 : released (l1 ++ l2) = released l1 ++ released l2.
Proof. unfold released. apply flat_map_app. Qed.

Lemma deliver_all_cons h k ev evs e :
  let r1 := deliver h k ev e in
  let r2 := deliver_all h k evs (after r1) in
  calls (deliver_all h k (ev :: evs) e) = calls r1 ++ calls r2
  /\ after (deliver_all h k (ev :: evs) e) = after r2.
Proof.
  cbn [deliver_all]. unfold bind, calls, after.
  destruct (deliver h k ev e) as [[[] e1] l1]. cbn [fst snd].
  destruct (deliver_all h k evs e1) as [[[] e2] l2]. cbn [fst snd].
  split; reflexivity.
Qed.

(** Releases never outnumber claims, whatever the order of events. *)
Lemma releases_bounded h k evs : forall e,
  let r := deliver_all h k evs e in
  (length (released (calls r)) + length (held (after r))
   <= length (taken (calls r)) + length (held e))%nat.
Proof.
  induction evs as [|ev evs IH]; intro e.
  - cbn. lia.
  - destruct (deliver_all_cons h k ev evs e) as [Hc Ha].
    cbv zeta. rewrite Hc, Ha, taken_app, released_app, !length_app.
    specialize (IH (after (deliver h k ev e))). cbv zeta in IH.
    assert (length (released (calls (deliver h k ev e)))
            + length (held (after (deliver h k ev e)))
            <= length (taken (calls (deliver h k ev e))) + length (held e))%nat.
    { unfold held.
      destruct (deliver_effect h k ev e) as [Ht Hr Hb|Ht Hr Hb _|b _ Ht Hr Hb|b He Ht Hr Hb];
        rewrite Ht, Hr, Hb; try rewrite He; cbn; lia. }
    lia.
Qed.

(** In an orderly sequence the claimed blocks are released one by one. *)
Lemma orderly_balance h k evs : forall e,
  orderly h k evs e = true ->
  let r := deliver_all h k evs e in
  held e ++ taken (calls r) = released (calls r) ++ held (after r).
Proof.
  induction evs as [|ev evs IH]; intros e Ho.
  - cbn. now rewrite app_nil_r.
  - cbn [orderly] in Ho. apply andb_true_iff in Ho. destruct Ho as [Hev Ho].
    destruct (deliver_all_cons h k ev evs e) as [Hc Ha].
    cbv zeta. rewrite Hc, Ha, taken_app, released_app.
    specialize (IH _ Ho). cbv zeta in IH.
    rewrite <- app_assoc, <- IH, !app_assoc. f_equal.
    unfold held.
    destruct (deliver_effect h k ev e) as [Ht Hr Hb|Ht Hr Hb Hwhich|b Hwhich Ht Hr Hb|b He Ht Hr Hb];
      rewrite Ht, Hr, Hb; try rewrite He; cbn; try now rewrite ?app_nil_r.
    + assert (current_block e = None) as ->; [|reflexivity].
      destruct Hwhich as [->|[b ->]]; destruct (current_block e);
        cbn in Hev; congruence.
    + assert (current_block e = None) as ->; [|reflexivity].
      subst ev. destruct (current_block e); cbn in Hev; congruence.
Qed.

(** ** The fractional step carry *)

Lemma Mode_eqb_OFF (m : Mode) : m <> OFF -> Mode_eqb m OFF = false.
Proof. destruct m; [congruence|reflexivity..]. Qed.

Lemma on_block_begin_moves k block e :
  enabled e = true -> mode e <> OFF ->
  let r := on_block_begin k block e in
  unstepped_distance (after r) = carry_of e
  /\ signed_steps (calls r)
     = (if Qltb 0 (travel_distance e) then steps_of e else - steps_of e)%Z
  /\ steps_per_millimeter (after r) = steps_per_millimeter e
  /\ enabled (after r) = true
  /\ mode (after r) = mode e.
Proof.
  intros He Hm. apply Mode_eqb_OFF in Hm.
  unfold on_block_begin, on_speed_change, carry_of. run_monad. fields.
  rewrite He, Hm. cbn [negb]. fold (steps_of e).
  destruct (Z.eqb_spec (steps_of e) 0) as [Hz|Hz]; cbn [negb].
  - rewrite Hz. branches; run_monad; fields; cbn [signed_steps fold_right];
      repeat split; auto.
  - branches; run_monad; fields; cbn [signed_steps fold_right];
      repeat split; auto; lia.
Qed.

Lemma floor_bounds (x : Q) :
  inject_Z (Qfloor x) <= x /\ x < inject_Z (Qfloor x) + 1.
Proof.
  split; [apply Qfloor_le|].
  pose proof (Qlt_floor x) as H. rewrite inject_Z_plus in H. exact H.
Qed.

(** The carry stays in [0, 1/steps_per_millimeter) and, with the steps
    taken, accounts for the travel exactly. *)
Lemma carry_step (e : Extruder) :
  0 < steps_per_millimeter e ->
  0 <= unstepped_distance e < 1 / steps_per_millimeter e ->
  let steps :=
    (if Qltb 0 (travel_distance e) then steps_of e else - steps_of e)%Z in
  (0 <= carry_of e < 1 / steps_per_millimeter e)
  /\ inject_Z steps * (1 / steps_per_millimeter e) + carry_of e
     == unstepped_distance e + travel_distance e.
Proof.
  intros Hspm [Hu0 Hu1].
  unfold carry_of, steps_of, floorf.
  set (spm := steps_per_millimeter e) in *.
  set (d := travel_distance e). set (u := unstepped_distance e) in *.
  set (n := Qfloor (spm * (d + u))).
  destruct (floor_bounds (spm * (d + u))) as [Hlo Hhi]. fold n in Hlo, Hhi.
  assert (Hnz : ~ spm == 0) by lra.
  assert (Hlo' : inject_Z n / spm <= d + u).
  { apply Qle_shift_div_r; [assumption|]. rewrite Qmult_comm. exact Hlo. }
  assert (Hhi' : d + u < (inject_Z n + 1) / spm).
  { apply Qlt_shift_div_l; [assumption|]. rewrite Qmult_comm. exact Hhi. }
  assert (Hsplit : (inject_Z n + 1) / spm == inject_Z n / spm + 1 / spm)
    by (field; assumption).
  assert (Hu1' : spm * u < 1).
  { apply (Qmult_lt_l _ _ spm) in Hu1; [|assumption].
    setoid_replace (spm * (1 / spm)) with 1 in Hu1 by (field; assumption).
    exact Hu1. }
  destruct (Qltb 0 d) eqn:Hd.
  - apply Qltb_lt in Hd.
    assert (Hn : (0 <= n)%Z).
    { assert (0 <= spm * (d + u)) by (apply Qmult_le_0_compat; lra).
      change 0%Z with (Qfloor 0). now apply Qfloor_resp_le. }
    rewrite Z.abs_eq by assumption.
    split; [split; lra|]. field. assumption.
  - apply Qltb_ge in Hd.
    assert (Hn : (n <= 0)%Z).
    { assert (spm * (d + u) < 1).
      { assert (spm * d <= 0).
        { setoid_replace (spm * d) with (- (spm * - d)) by ring.
          assert (0 <= spm * - d) by (apply Qmult_le_0_compat; lra). lra. }
        setoid_replace (spm * (d + u)) with (spm * d + spm * u) by ring. lra. }
      assert (inject_Z n < 1) by lra.
      change 1 with (inject_Z 1) in H0. rewrite <- Zlt_Qlt in H0. lia. }
    rewrite Z.abs_neq by assumption.
    rewrite Z.opp_involutive, inject_Z_opp.
    split; [split|].
    + setoid_replace (u + (d + - inject_Z n / spm)) with (d + u - inject_Z n / spm)
        by (field; assumption). lra.
    + setoid_replace (u + (d + - inject_Z n / spm)) with (d + u - inject_Z n / spm)
        by (field; assumption). lra.
    + field. assumption.
Qed.

Lemma travel_block_begin k d block e :
  after (travel_block k d block e)
  = after (on_block_begin k block (set_travel_distance d e))
  /\ calls (travel_block k d block e)
     = calls (on_block_begin k block (set_travel_distance d e)).
Proof.
  unfold travel_block, bind, assign_with, after, calls.
  destruct (on_block_begin k block (set_travel_distance d e)) as [[[] e1] l1].
  split; reflexivity.
Qed.

Lemma travel_blocks_cons k d block ds e :
  let r1 := travel_block k d block e in
  let r2 := travel_blocks k ds (after r1) in
  calls (travel_blocks k ((d, block) :: ds) e) = calls r1 ++ calls r2
  /\ after (travel_blocks k ((d, block) :: ds) e) = after r2.
Proof.
  cbn [travel_blocks]. unfold bind, calls, after.
  destruct (travel_block k d block e) as [[[] e1] l1]. cbn [fst snd].
  destruct (travel_blocks k ds e1) as [[[] e2] l2]. cbn [fst snd].
  split; reflexivity.
Qed.

Lemma signed_steps_app l1 l2 :
  signed_steps (l1 ++ l2) = (signed_steps l1 + signed_steps l2)%Z.
Proof.
  induction l1 as [|c l1 IH]; [reflexivity|].
  cbn [app signed_steps fold_right]. fold (signed_steps (l1 ++ l2)).
  fold (signed_steps l1). rewrite IH. destruct c; lia.
Qed.

Lemma travel_blocks_carry k ds : forall e,
  enabled e = true -> mode e <> OFF ->
  0 < steps_per_millimeter e ->
  0 <= unstepped_distance e < 1 / steps_per_millimeter e ->
  let r := travel_blocks k ds e in
  let pitch := 1 / steps_per_millimeter e in
  0 <= unstepped_distance (after r) < pitch
  /\ inject_Z (signed_steps (calls r)) * pitch + unstepped_distance (after r)
     == unstepped_distance e + Qsum (map fst ds).
Proof.
  induction ds as [|[d block] ds IH]; intros e He Hm Hspm Hu.
  - cbn. split; [exact Hu|]. ring.
  - destruct (travel_blocks_cons k d block ds e) as [Hc Ha].
    destruct (travel_block_begin k d block e) as [Ha1 Hc1].
    cbv zeta. rewrite Hc, Ha, Ha1, Hc1, signed_steps_app, inject_Z_plus.
    set (e0 := set_travel_distance d e).
    destruct (on_block_begin_moves k block e0 He Hm)
      as (Hcarry & Hsteps & Hspm1 & He1 & Hm1).
    destruct (carry_step e0 Hspm Hu) as [Hrange Hsum].
    set (e1 := after (on_block_begin k block e0)) in *.
    specialize (IH e1 He1).
    rewrite Hspm1, Hcarry, Hm1 in IH.
    specialize (IH Hm Hspm Hrange). cbv zeta in IH.
    destruct IH as [IHrange IHsum].
    change (steps_per_millimeter e0) with (steps_per_millimeter e) in *.
    change (unstepped_distance e0) with (unstepped_distance e) in *.
    change (travel_distance e0) with d in *.
    split; [exact IHrange|].
    rewrite Hsteps. cbn [map fst Qsum fold_right]. fold (Qsum (map fst ds)).
    rewrite Qmult_plus_distr_l. lra.
Qed.

(** In exact arithmetic the carry is conserved.  Starting with an empty
    carry, for every sequence of blocks with travel distances [d_1 .. d_N]
    begun with the extruder enabled and its mode not OFF: the signed steps
    programmed into the stepper, times the step pitch, plus the final
    [unstepped_distance], equal the sum of the [d_i]; and after each block of
    the sequence the magnitude of [unstepped_distance] is below one step
    pitch.  On binary32 the carry can reach a whole step and grow from
    there, see the carry on single precision below. *)
Theorem fractional_step_conservation k ds e :
  enabled e = true -> mode e <> OFF ->
  0 < steps_per_millimeter e ->
  unstepped_distance e == 0 ->
  let pitch := 1 / steps_per_millimeter e in
  (let r := travel_blocks k ds e in
   inject_Z (signed_steps (calls r)) * pitch + unstepped_distance (after r)
   == Qsum (map fst ds))
  /\ (forall n,
       Qabs (unstepped_distance (after (travel_blocks k (firstn n ds) e)))
       < pitch).
Proof.
  intros He Hm Hspm Hu pitch.
  assert (Hpitch : 0 < pitch).
  { subst pitch. apply Qlt_shift_div_l; [assumption|]. lra. }
  assert (Hu' : 0 <= unstepped_distance e < 1 / steps_per_millimeter e).
  { fold pitch. lra. }
  split.
  - destruct (travel_blocks_carry k ds e He Hm Hspm Hu') as [_ Hsum].
    cbv zeta. fold pitch in Hsum. rewrite Hsum. lra.
  - intro n.
    destruct (travel_blocks_carry k (firstn n ds) e He Hm Hspm Hu') as [Hr _].
    fold pitch in Hr. apply Qabs_Qlt_condition. lra.
Qed.

(** ** Speed in FOLLOW mode and the homing scan *)

(** C6.  In FOLLOW mode with a block claimed and the stepper moving,
    [on_speed_change] with a non-null argument sets the speed of the stepper
    to the trapezoid adjusted rate times the steps to move of this axis over
    the step event count of the block; for a rate of 2000, 100 steps and a
    count of 400 the speed is 500. *)
Theorem on_speed_change_follow_rate k block e :
  enabled e = true ->
  current_block e = Some block ->
  mode e = FOLLOW ->
  moving (stepper_motor e) = true ->
  (0 < steps_event_count block)%Z ->
  let r := on_speed_change k non_null e in
  let new_speed := steps_per_second (stepper_motor (after r)) in
  new_speed
  == trapezoid_adjusted_rate k
     * (inject_Z (steps_to_move (stepper_motor e))
        / inject_Z (steps_event_count block))
  /\ (trapezoid_adjusted_rate k == 2000 ->
      steps_to_move (stepper_motor e) = 100%Z ->
      steps_event_count block = 400%Z ->
      new_speed == 500)
  /\ current_block (after r) = Some block
  /\ calls r = [].
Proof.
  intros He Hb Hm Hmv Hcount r new_speed.
  subst new_speed r. unfold on_speed_change. run_monad.
  rewrite Hb, He, Hm, Hmv. cbn [negb orb Mode_eqb]. run_monad. fields.
  assert (Hnz : ~ inject_Z (steps_event_count block) == 0).
  { change 0 with (inject_Z 0). rewrite inject_Z_injective. lia. }
  repeat split.
  - field. exact Hnz.
  - intros Hrate Hsteps Hcnt. rewrite Hrate, Hsteps, Hcnt. reflexivity.
  - exact Hb.
Qed.

Lemma max_element_from_spec (l : list Z) :
  forall best best_i i,
    let r := max_element_from best best_i i l in
    (r = best_i /\ forall j, (j < length l)%nat -> (nth j l 0 <= best)%Z)
    \/ exists j, r = (i + j)%nat /\ (j < length l)%nat /\ (best < nth j l 0)%Z
         /\ (forall j', (j' < length l)%nat -> (nth j' l 0 <= nth j l 0)%Z)
         /\ (forall j', (j' < j)%nat -> (nth j' l 0 < nth j l 0)%Z).
Proof.
  induction l as [|x l IH]; intros best best_i i; simpl.
  - left. split; [reflexivity|]. intros j Hj. lia.
  - destruct (Z.ltb_spec best x) as [E|E].
    + right.
      destruct (IH x i (S i)) as [[Hr Hall] | [j [Hr [Hj [Hlt [Hmax Hfirst]]]]]].
      * exists 0%nat. rewrite Hr.
        repeat split; try lia.
        intros [|j'] Hj'; [lia|]. apply Hall. lia.
      * exists (S j). rewrite Hr.
        repeat split; try lia.
        -- intros [|j'] Hj'; [lia|]. apply Hmax. lia.
        -- intros [|j'] Hj'; [lia|]. apply Hfirst. lia.
    + destruct (IH best best_i (S i)) as [[Hr Hall] | [j [Hr [Hj [Hlt [Hmax Hfirst]]]]]].
      * left. split; [assumption|].
        intros [|j'] Hj'; [assumption|]. apply Hall. lia.
      * right. exists (S j). rewrite Hr.
        repeat split; try lia.
        -- intros [|j'] Hj'; [lia|]. apply Hmax. lia.
        -- intros [|j'] Hj'; [lia|]. apply Hfirst. lia.
Qed.

Lemma max_element_first_greatest (l : list Z) :
  l <> [] -> first_greatest l (max_element l).
Proof.
  destruct l as [|x l]; [congruence|]. intros _.
  unfold max_element, first_greatest.
  destruct (max_element_from_spec l x 0%nat 1%nat)
    as [[Hr Hall] | [j [Hr [Hj [Hlt [Hmax Hfirst]]]]]]; rewrite Hr; simpl.
  - repeat split; try lia.
    intros [|j] Hj; [lia|]. apply Hall. lia.
  - repeat split; try lia.
    + intros [|j'] Hj'; [lia|]. apply Hmax. lia.
    + intros [|j'] Hj'; [lia|]. apply Hfirst. lia.
Qed.

Lemma first_greatest_unique (l : list Z) (k k' : nat) :
  first_greatest l k -> first_greatest l k' -> k = k'.
Proof.
  intros (Hk & Hmax & Hfirst) (Hk' & Hmax' & Hfirst').
  destruct (Nat.lt_trichotomy k k') as [Hlt|[Heq|Hgt]]; [|assumption|].
  - specialize (Hfirst' k Hlt). specialize (Hmax k' Hk'). lia.
  - specialize (Hfirst k' Hgt). specialize (Hmax' k Hk). lia.
Qed.

Lemma wait_move_never_halted raw i e :
  result (wait_move (never_halted raw) i e) = false.
Proof.
  unfold wait_move, stepper_motor_finished_move. run_monad.
  cbn [halted_during never_halted].
  branches; run_monad; reflexivity.
Qed.

Lemma find_zero_angle_never_halted raw fuel h :
  forall current_search_angle sensor_value e,
    result (find_zero_angle fuel h (never_halted raw)
              current_search_angle sensor_value e)
    = option_map Some (sweep fuel h raw current_search_angle sensor_value).
Proof.
  induction fuel as [|fuel IH]; intros cur sv e; cbn [find_zero_angle sweep].
  - destruct (Qle_bool cur (DEGREE_OF_CYCLE h)); reflexivity.
  - destruct (Qle_bool cur (DEGREE_OF_CYCLE h)); [|reflexivity].
    unfold bind at 1. unfold this. unfold bind at 1.
    destruct (stepper_motor_move _ _ _ e) as [[[] e1] l1].
    unfold bind at 1.
    pose proof (wait_move_never_halted raw (length sv) e1) as Hw.
    destruct (wait_move _ _ e1) as [[stop e2] l2]. cbn in Hw. subst stop.
    cbn [raw_value never_halted].
    specialize (IH (cur + RAW_SEARCH_ANGLE h) (sv ++ [raw (length sv)]) e2).
    destruct (find_zero_angle _ _ _ _ _ e2) as [[res e3] l3].
    exact IH.
Qed.

Lemma do_home_never_halted raw fuel h e :
  result (do_home fuel h (never_halted raw) e)
  = match sweep fuel h raw 0 [] with
    | None => out_of_fuel
    | Some sensor_value =>
        homed sensor_value
          (inject_Z (Z.of_nat (max_element sensor_value)) * RAW_SEARCH_ANGLE h)
    end.
Proof.
  unfold do_home.
  unfold bind at 1. unfold on_stepper at 1, assign_with at 1.
  unfold bind at 1. unfold on_stepper at 1, assign_with at 1.
  unfold bind at 1. unfold on_stepper at 1, assign_with at 1.
  unfold bind at 1.
  match goal with
  | |- context [find_zero_angle fuel h _ 0 [] ?e0] =>
      pose proof (find_zero_angle_never_halted raw fuel h 0 [] e0) as Hs;
      destruct (find_zero_angle fuel h (never_halted raw) 0 [] e0)
        as [[scan e1] l1]
  end.
  cbn [result fst] in Hs. subst scan.
  destruct (sweep fuel h raw 0 []) as [sv|]; cbn [option_map]; [|reflexivity].
  unfold bind at 1. unfold this.
  unfold bind at 1.
  destruct (stepper_motor_move _ _ _ e1) as [[[] e2] l2].
  unfold bind at 1.
  pose proof (wait_move_never_halted raw (length sv) e2) as Hw.
  destruct (wait_move _ _ e2) as [[stop e3] l3]. cbn in Hw. subst stop.
  reflexivity.
Qed.

Local Open Scope char_scope.

(** When the first greatest of the 37 samples is the one of index 18, the
    home angle is 18 * 10 = 180. *)
Lemma do_home_first_peak_18 (raw : nat -> Z) (e : Extruder) :
  first_greatest (map raw (seq 0 37)) 18 ->
  result (do_home 37 bench_header (never_halted raw) e)
  = homed (map raw (seq 0 37)) (inject_Z 18 * 10).
Proof.
  intro Hpeak. rewrite do_home_never_halted.
  change (sweep 37 bench_header raw 0 []) with (Some (map raw (seq 0 37))).
  cbv beta iota.
  assert (Hmax : max_element (map raw (seq 0 37)) = 18%nat).
  { apply (first_greatest_unique (map raw (seq 0 37))); [|assumption].
    apply max_element_first_greatest. discriminate. }
  rewrite Hmax. reflexivity.
Qed.

(** C5.  With a full cycle of 360 degrees and increments of 10, a scan that
    is never halted collects 37 samples, whatever the sensor reads: the loop
    runs while the swept angle is at most 360, the bound included.  After 36
    samples the loop has not ended.  The home angle is the index of the first
    greatest sample times 10. *)
Theorem do_home_scan_360_by_10 (raw : nat -> Z) (e : Extruder) :
  let samples := map raw (seq 0 37) in
  result (do_home 37 bench_header (never_halted raw) e)
  = homed samples (inject_Z (Z.of_nat (max_element samples)) * 10)
  /\ length samples = 37%nat
  /\ result (do_home 36 bench_header (never_halted raw) e) = out_of_fuel.
Proof.
  rewrite !do_home_never_halted. repeat split.
Qed.

(** The scan on the bench with a sensor peak at index 18: 37 samples, home
    angle 180, 37 moves of 50 steps and a last move of 900 = 180 * 5 steps. *)
Example do_home_peak_at_18 :
  let r := do_home 37 bench_header (never_halted peak_at_18) bench in
  exists samples,
    result r = homed samples 180
    /\ length samples = 37%nat
    /\ max_element samples = 18%nat
    /\ last (calls r) conveyor_queue_head_block = stepper_move true 900
    /\ length (calls r) = 38%nat.
Proof.
  eexists. vm_compute. repeat split.
Qed.

Ltac decide_codes :=
  repeat match goal with
         | |- context [(?a =? ?b)%Z] =>
             let v := eval vm_compute in (a =? b)%Z in
             change (a =? b)%Z with v
         | |- context [(?a <? ?b)%Z] =>
             let v := eval vm_compute in (a <? b)%Z in
             change (a <? b)%Z with v
         end.

(** C9.  A G10 received while [retracted] is set, and a G11 received while
    it is clear, change nothing and call nothing.  A G10 for this extruder
    (enabled, no L word) while not retracted sets [retracted] and clears
    [cancel_zlift_restore]; a G11 while retracted clears [retracted]: each
    valid command toggles the flag once. *)
Theorem retract_toggle fuel h sc gcode e :
  has_m gcode = false ->
  has_g gcode = true ->
  let r := on_gcode_received fuel h sc gcode e in
  (g gcode = 10%Z -> retracted e = true -> after r = e /\ calls r = [])
  /\ (g gcode = 11%Z -> retracted e = false -> after r = e /\ calls r = [])
  /\ (g gcode = 10%Z -> enabled e = true -> has_letter gcode "L" = false ->
      retracted e = false ->
      retracted (after r) = true /\ cancel_zlift_restore (after r) = false)
  /\ (g gcode = 11%Z -> enabled e = true -> has_letter gcode "L" = false ->
      retracted e = true ->
      retracted (after r) = false
      /\ cancel_zlift_restore (after r) = cancel_zlift_restore e).
Proof.
  intros Hm Hg r. subst r.
  unfold on_gcode_received, received_command, received_modal.
  rewrite Hm, Hg.
  split; [|split; [|split]].
  - intros -> Hr. run_monad. rewrite Hr. decide_codes.
    destruct (enabled e), (has_letter gcode "E"), (has_letter gcode "L");
      cbn [negb andb orb]; run_monad; split; reflexivity.
  - intros -> Hr. run_monad. rewrite Hr. decide_codes.
    destruct (enabled e), (has_letter gcode "E"), (has_letter gcode "L");
      cbn [negb andb orb]; run_monad; split; reflexivity.
  - intros -> He HL Hr. run_monad. rewrite He, HL, Hr. decide_codes.
    cbn [negb andb orb]. run_monad. fields.
    branches; run_monad; fields; split; reflexivity.
  - intros -> He HL Hr. run_monad. rewrite He, HL, Hr. decide_codes.
    cbn [negb andb orb]. run_monad. fields.
    branches; run_monad; fields; split; reflexivity.
Qed.

Lemma limit_angle_stays_outside (h : ExtruderH) (a : Q) :
  ~ MAX_ANGLE_LIMIT h == 0 ->
  MAX_ANGLE_LIMIT h < a \/ a < MIN_ANGLE_LIMIT h ->
  MAX_ANGLE_LIMIT h < limit_angle h a \/ limit_angle h a < MIN_ANGLE_LIMIT h.
Proof.
  intros Hnz Hout. rewrite (limit_angle_same h a Hnz). exact Hout.
Qed.

(** C8.  With limits 0 and 360, the input angle 400 is beyond the maximum;
    the angle [optimize_angle] goes on with is 400, not 40: it is not wrapped,
    stays outside the limits and is stored as [previous_angle]. *)
Theorem limit_angle_keeps_400 :
  let used := limit_angle bench_header 400 in
  let r := optimize_angle bench_header 400 bench in
  used == 400
  /\ ~ used == 40
  /\ ~ (MIN_ANGLE_LIMIT bench_header <= used <= MAX_ANGLE_LIMIT bench_header)
  /\ previous_angle (after r) == 400
  /\ travel_distance (after r) == - angle_to_distance bench 40.
Proof.
  vm_compute. repeat split; intros; try discriminate; try tauto.
Qed.

(** C4.  [optimize_angle] returns 0 on every path, not the normalized
    angle: for 90 and for -90 from a previous angle 0 the result is 0, and
    G92 E90 sets [current_angle] and [target_angle] to 0. *)
Theorem optimize_angle_result_is_zero :
  (forall h e input_angle, result (optimize_angle h input_angle e) = 0)
  /\ (let r := optimize_angle bench_header 90 bench in
      result r = 0 /\ previous_angle (after r) = 90)
  /\ (let r := optimize_angle bench_header (-90) bench in
      result r = 0 /\ previous_angle (after r) == 270)
  /\ (let r := on_gcode_execute bench_header bench_kernel
                 (G 92 [("E", 90)] 0) bench in
      current_angle (after r) = 0 /\ target_angle (after r) = 0
      /\ previous_angle (after r) = 90).
Proof.
  split; [exact optimize_angle_returns_zero|].
  vm_compute. repeat split.
Qed.

(** What holds of claims and releases.  From a state with no block held,
    for every sequence of block begin, block end, speed change, finished move
    and command execution events: releases never outnumber claims, a held
    block being a claim not yet released.  When block begin and block end
    arrive only while no block is held, the blocks claimed are the blocks
    released, in order, followed by the block still held: claims exceed
    releases by at most one. *)
Theorem claims_and_releases h k evs e :
  current_block e = None ->
  let r := deliver_all h k evs e in
  (length (released (calls r)) + length (held (after r))
   <= length (taken (calls r)))%nat
  /\ (orderly h k evs e = true ->
      taken (calls r) = released (calls r) ++ held (after r)
      /\ (length (taken (calls r)) <= length (released (calls r)) + 1)%nat).
Proof.
  intros Hb r. split.
  - pose proof (releases_bounded h k evs e) as H. cbv zeta in H.
    unfold held at 2 in H. rewrite Hb in H. cbn [length] in H.
    subst r. lia.
  - intro Ho.
    pose proof (orderly_balance h k evs e Ho) as H. cbv zeta in H.
    unfold held at 1 in H. rewrite Hb in H. cbn [app] in H.
    subst r. split; [exact H|].
    rewrite H, length_app. unfold held.
    destruct (current_block (after _)); cbn [length]; lia.
Qed.

(** C3.  A claimed block can be left unreleased.  [on_block_begin] takes
    the block with the comment that it has to be released or everything gets
    stuck, but [on_block_end] only drops the reference: when a block ends
    before the move of the extruder has finished, the later
    [stepper_motor_finished_move] finds no block to release, and the next
    block is claimed on top of it.  After begin, end, finished, begin two
    blocks are claimed and none is released. *)
Lemma claim_left_unreleased :
  let e := after (on_gcode_execute bench_header bench_kernel
                    (G 1 [("E", 90)] 0) bench) in
  let evs := [BlockBegin block_1; BlockEnd; FinishedMove; BlockBegin block_2] in
  let r := deliver_all bench_header bench_kernel evs e in
  current_block e = None
  /\ taken (calls r) = [block_1; block_2]
  /\ released (calls r) = []
  /\ ~ (length (taken (calls r)) <= length (released (calls r)) + 1)%nat.
Proof.
  vm_compute. repeat split. intro H. lia.
Qed.

(** ** Single precision cross-checks *)

(** The literals [0.00001F] and [0.01F] are the floats nearest to 1/100000
    and 1/100. *)
Example binary32_literals :
  Binary32.to_Q (Binary32.div (Binary32.of_Z 1) (Binary32.of_Z 100000)) == eps_travel
  /\ Binary32.to_Q (Binary32.div (Binary32.of_Z 1) (Binary32.of_Z 100)) == eps_diameter.
Proof. split; reflexivity. Qed.

(** On floats, [(400/360)*360] is the float next above 400: the limit
    statement moves 400 by one unit in the last place and does not wrap it. *)
Example binary32_limit_angle_400 :
  Binary32.to_Q (Binary32.limit_angle (Binary32.of_Z 360) (Binary32.of_Z 0)
                   (Binary32.of_Z 400))
  == 400 + (1 # 2 ^ 15).
Proof. reflexivity. Qed.

(** The swept angles 0, 10, .., 360 are exact on floats: 37 rounds. *)
Example binary32_scan_rounds :
  Binary32.scan_rounds 37 (Binary32.of_Z 360) (Binary32.of_Z 10) (Binary32.of_Z 0)
  = Some 37%nat.
Proof. reflexivity. Qed.

(** [2000 * 100 / 400] is exactly 500 on floats. *)
Example binary32_follow_rate :
  Binary32.div (Binary32.mul (Binary32.of_Z 2000) (Binary32.of_Z 100))
    (Binary32.of_Z 400)
  = Binary32.of_Z 500.
Proof. reflexivity. Qed.

(** ** Single precision: signs, order and rounding

    What the proofs on binary32 need of [SpecFloat]: the operations are
    symmetric in the sign, [<] is a strict weak order that a NaN never
    enters, and a rounded quotient is a canonical float, so that multiplying
    it by -1 only changes its sign. *)

(** *** Signs *)

Section Symmetry.
Variables prec emax : Z.







End Symmetry.



Section Rounding.

Local Open Scope Z_scope.

(** *** Binary digits *)








(** *** Shifts *)






(** *** The result of rounding is canonical *)









End Rounding.

(** ** The optimizer and the carry on single precision *)









Section NotNan.
Local Open Scope Z_scope.




End NotNan.















(** C2.  On binary32 the carry does not stay below one step.  With 10 steps
    per millimeter and an empty carry, a block with the travel distance
    [-1e-10F] takes one step back and leaves [unstepped_distance] at
    [-1e-10F + 0.1F = 0.1F], one whole step pitch.  Every following block
    with a travel distance of 0 then steps back again and adds its steps to
    the carry: after four blocks the stepper has gone 1, 1, 2 and 4 steps
    back and the carry is eight step pitches, for a commanded total of
    [-1e-10].  The optimizer assigns such a travel for a move from the
    angle [2e-10F] to the angle 0. *)
Theorem binary32_carry_runs_away :
  let pitch := Binary32.div (Binary32.of_Z 1) (Binary32.steps_per_millimeter bench32) in
  let zero := Binary32.of_Z 0 in
  minus_1e_10 = Binary32.div (Binary32.of_Z (-1)) (Binary32.of_Z (10 ^ 10))
  /\ (exists e1,
        Binary32.travel_blocks [minus_1e_10] bench32
        = Some ([Some (false, 1%Z)], e1)
        /\ Binary32.unstepped_distance e1 = pitch
        /\ SFltb (SFabs (Binary32.unstepped_distance e1)) pitch = false)
  /\ (exists e4,
        Binary32.travel_blocks [minus_1e_10; zero; zero; zero] bench32
        = Some ([Some (false, 1%Z); Some (false, 1%Z);
                 Some (false, 2%Z); Some (false, 4%Z)], e4)
        /\ Binary32.unstepped_distance e4
           = Binary32.mul (Binary32.of_Z 8) pitch)
  /\ (let e := Binary32.set_previous_angle two_e_10 bench32 in
      let e' := snd (Binary32.optimize_angle (Binary32.of_Z 360) zero zero e) in
      SFltb (Binary32.travel_distance e') zero = true
      /\ exists e1,
           Binary32.on_block_begin e' = Some (e1, Some (false, 1%Z))
           /\ Binary32.unstepped_distance e1 = pitch).
Proof.
  cbv zeta. split; [reflexivity|]. split; [|split; [|split]].
  - eexists. split; [vm_compute; reflexivity|]. split; reflexivity.
  - eexists. split; [vm_compute; reflexivity|]. reflexivity.
  - reflexivity.
  - eexists. split; [vm_compute; reflexivity|]. reflexivity.
Qed.

(** Two more roundings of the step count: ten times [0.7F] rounds to 7, so
    that 7 steps are taken where the exact product floors to 6, and a travel
    of 1e9 millimeters has no step count in [int]. *)
Example binary32_step_roundings :
  let d := Binary32.div (Binary32.of_Z 7) (Binary32.of_Z 10) in
  (exists e1, Binary32.travel_blocks [d] bench32 = Some ([Some (true, 7%Z)], e1)
              /\ Binary32.unstepped_distance e1 = Binary32.of_Z 0)
  /\ Qfloor (10 * Binary32.to_Q d) = 6%Z
  /\ Binary32.travel_blocks [Binary32.of_Z 1000000000] bench32 = None.
Proof.
  cbv zeta. split; [|split].
  - eexists. split; [vm_compute; reflexivity|]. reflexivity.
  - vm_compute. reflexivity.
  - vm_compute. reflexivity.
Qed.

(** * The theorems at concrete inputs *)

Lemma bench_limit_nonzero : ~ MAX_ANGLE_LIMIT bench_header == 0.
Proof. discriminate. Qed.


(** Angle 90 commanded at angle 90. *)
Lemma optimize_angle_same_angle_witness :
  0 <= 90 < 360
  /\ travel_distance (after (optimize_angle bench_header 90
                               (set_previous_angle 90 bench))) = 0
  /\ previous_angle (after (optimize_angle bench_header 90
                              (set_previous_angle 90 bench))) = 90.
Proof.
  assert (Hi : 0 <= 90 < 360) by (split; [discriminate|reflexivity]).
  split; [exact Hi|].
  destruct (optimize_angle_same_angle bench_header
              (set_previous_angle 90 bench) 90 Hi (Qeq_refl 90))
    as (_ & Ht & Hp & _).
  split; [exact Ht|exact Hp].
Defined.

(** Angle 210 commanded at angle 30. *)
Lemma optimize_angle_antipodal_witness :
  0 <= previous_angle (set_previous_angle 30 bench) < 360
  /\ travel_distance (after (optimize_angle bench_header 210
                               (set_previous_angle 30 bench))) = 0
  /\ previous_angle (after (optimize_angle bench_header 210
                              (set_previous_angle 30 bench))) = 30.
Proof.
  assert (Hp : 0 <= previous_angle (set_previous_angle 30 bench) < 360)
    by (split; [discriminate|reflexivity]).
  split; [exact Hp|].
  destruct (optimize_angle_antipodal bench_header bench_limit_nonzero
              (set_previous_angle 30 bench) Hp) as (_ & _ & Ht & Hprev & _).
  split; [exact Ht|exact Hprev].
Defined.

(** Three blocks of 45, -1/4 and 7/100 at 10 steps per millimeter. *)
Lemma fractional_step_conservation_witness :
  let e := set_mode SOLO bench in
  let ds := [(45, block_1); (- (1 # 4), block_2); (7 # 100, block_1)] in
  let r := travel_blocks bench_kernel ds e in
  (enabled e = true /\ mode e <> OFF /\ 0 < steps_per_millimeter e
   /\ unstepped_distance e == 0)
  /\ inject_Z (signed_steps (calls r)) * (1 / 10) + unstepped_distance (after r)
     == 45 - (1 # 4) + (7 # 100)
  /\ Qabs (unstepped_distance (after r)) < 1 / 10.
Proof.
  intros e ds r.
  assert (He : enabled e = true) by reflexivity.
  assert (Hm : mode e <> OFF) by discriminate.
  assert (Hs : 0 < steps_per_millimeter e) by reflexivity.
  assert (Hu : unstepped_distance e == 0) by reflexivity.
  split; [auto|].
  destruct (fractional_step_conservation bench_kernel ds e He Hm Hs Hu)
    as [Hsum Hcarry].
  split.
  - refine (Qeq_trans _ _ _ Hsum _). reflexivity.
  - exact (Hcarry 3%nat).
Defined.

(** A SOLO block released by the end of its move, then a FOLLOW block
    released by a flush. *)
Lemma claims_and_releases_witness :
  let evs := [Execute (G 1 [("E", 90)] 0); BlockBegin block_1; FinishedMove;
              BlockEnd; FinishedMove;
              Execute (G 1 [("E", 45)] 12); BlockBegin block_2;
              SpeedChange null; BlockEnd] in
  let r := deliver_all bench_header bench_kernel evs bench in
  (current_block bench = None
   /\ orderly bench_header bench_kernel evs bench = true)
  /\ taken (calls r) = released (calls r) ++ held (after r)
  /\ (length (released (calls r)) + length (held (after r))
      <= length (taken (calls r)))%nat
  /\ taken (calls r) = [block_1; block_2].
Proof.
  intros evs r.
  assert (Hb : current_block bench = None) by reflexivity.
  assert (Ho : orderly bench_header bench_kernel evs bench = true)
    by (vm_compute; reflexivity).
  split; [auto|].
  destruct (claims_and_releases bench_header bench_kernel evs bench Hb)
    as [Hle Hbal].
  destruct (Hbal Ho) as [Heq _].
  split; [exact Heq|]. split; [exact Hle|]. reflexivity.
Defined.

(** Rate 2000, 100 steps to move, 400 step events. *)
Lemma on_speed_change_follow_rate_witness :
  let e := set_stepper_motor (motor_move true 100 None bench_motor)
             (set_current_block (Some block_1) (set_mode FOLLOW bench)) in
  (enabled e = true /\ current_block e = Some block_1 /\ mode e = FOLLOW
   /\ moving (stepper_motor e) = true /\ (0 < steps_event_count block_1)%Z)
  /\ steps_per_second
       (stepper_motor (after (on_speed_change bench_kernel non_null e)))
     == 500.
Proof.
  intro e.
  assert (He : enabled e = true) by reflexivity.
  assert (Hb : current_block e = Some block_1) by reflexivity.
  assert (Hm : mode e = FOLLOW) by reflexivity.
  assert (Hmv : moving (stepper_motor e) = true) by reflexivity.
  assert (Hc : (0 < steps_event_count block_1)%Z) by reflexivity.
  split; [auto 6|].
  destruct (on_speed_change_follow_rate bench_kernel block_1 e He Hb Hm Hmv Hc)
    as (_ & H & _).
  apply H; reflexivity.
Defined.

(** G10, G10, G11, G11 on the bench: the second of each pair changes
    nothing. *)
Lemma retract_toggle_witness :
  let sc := never_halted peak_at_18 in
  let g10 := G 10 [] 0 in
  let g11 := G 11 [] 0 in
  let e1 := after (on_gcode_received 0 bench_header sc g10 bench) in
  let e2 := after (on_gcode_received 0 bench_header sc g10 e1) in
  let e3 := after (on_gcode_received 0 bench_header sc g11 e2) in
  let e4 := after (on_gcode_received 0 bench_header sc g11 e3) in
  (has_m g10 = false /\ has_g g10 = true)
  /\ retracted e1 = true /\ cancel_zlift_restore e1 = false
  /\ e2 = e1
  /\ retracted e3 = false
  /\ e4 = e3.
Proof.
  intros sc g10 g11 e1 e2 e3 e4.
  split; [split; reflexivity|].
  destruct (retract_toggle 0 bench_header sc g10 bench eq_refl eq_refl)
    as (_ & _ & Hvalid10 & _).
  destruct (Hvalid10 eq_refl eq_refl eq_refl eq_refl) as [Hr1 Hc1].
  destruct (retract_toggle 0 bench_header sc g10 e1 eq_refl eq_refl)
    as (Hdup10 & _).
  destruct (Hdup10 eq_refl Hr1) as [He2 _].
  destruct (retract_toggle 0 bench_header sc g11 e2 eq_refl eq_refl)
    as (_ & _ & _ & Hvalid11).
  assert (Hr2 : retracted e2 = true) by (unfold e2; rewrite He2; exact Hr1).
  destruct (Hvalid11 eq_refl eq_refl eq_refl Hr2) as [Hr3 _].
  destruct (retract_toggle 0 bench_header sc g11 e3 eq_refl eq_refl)
    as (_ & Hdup11 & _).
  destruct (Hdup11 eq_refl Hr3) as [He4 _].
  repeat split; assumption.
Defined.

(** * Further properties

    Properties of the optimizer, the block handshake, the
    speed check, the state requests, the G-code handlers and the homing scan
    that the code shows beyond the ones above. *)

Lemma normalize_angle_closed_range (a : Q) :
  -360 <= a <= 360 -> 0 <= normalize_angle a <= 360.
Proof.
  intros [H0 H1]. destruct (Qlt_le_dec a 0) as [H|H].
  - rewrite normalize_angle_neg by assumption. lra.
  - rewrite normalize_angle_nonneg by assumption. lra.
Qed.

Lemma limit_angle_within (h : ExtruderH) (a : Q) :
  MIN_ANGLE_LIMIT h <= a <= MAX_ANGLE_LIMIT h -> limit_angle h a = a.
Proof.
  intros [H0 H1]. unfold limit_angle, Qltb.
  assert (E1 : Qle_bool a (MAX_ANGLE_LIMIT h) = true) by now apply Qle_bool_iff.
  assert (E2 : Qle_bool (MIN_ANGLE_LIMIT h) a = true) by now apply Qle_bool_iff.
  now rewrite E1, E2.
Qed.

(** X4.  With limits that enclose the cycle (a minimum not above 0 and a
    maximum not below 360), if [previous_angle] is in [0, 360] and the input
    angle in [-360, 360], then [previous_angle] is in [0, 360] after
    [optimize_angle] too. *)
Theorem optimize_angle_keeps_range (h : ExtruderH) (e : Extruder) (input_angle : Q) :
  MIN_ANGLE_LIMIT h <= 0 -> 360 <= MAX_ANGLE_LIMIT h ->
  0 <= previous_angle e <= 360 ->
  -360 <= input_angle <= 360 ->
  0 <= previous_angle (after (optimize_angle h input_angle e)) <= 360.
Proof.
  intros Hmin Hmax Hp Hi.
  pose proof (normalize_angle_closed_range _ Hi) as Hn.
  unfold optimize_angle. run_monad.
  rewrite (limit_angle_within h (normalize_angle input_angle)) by lra.
  destruct (Qeq_bool _ _); run_monad; fields; [exact Hp|].
  destruct (Qeq_bool _ _); run_monad; fields; [exact Hp|].
  destruct (diff_case_of _) as [[| | |]|]; run_monad;
    try destruct (Qltb _ 0); run_monad; fields; exact Hn.
Qed.

(** X8.  If [current_angle] is at most 360 and the travel at most a full
    turn, [current_angle] is at most 360 after [on_block_begin]: a sum
    beyond 360 is wrapped. *)
Theorem on_block_begin_wraps_angle k block e :
  current_angle e <= 360 ->
  distance_to_angle e (travel_distance e) <= 360 ->
  current_angle (after (on_block_begin k block e)) <= 360.
Proof.
  intros Hc Ht.
  unfold on_block_begin, on_speed_change. run_monad. fields.
  branches; run_monad; fields; try exact Hc;
    try (match goal with H : Qltb 360 _ = false |- _ => apply Qltb_ge in H; exact H end);
    lra.
Qed.





Lemma ratio_in_unit (a v : Q) : 0 < a -> a < v -> 0 <= a / v <= 1.
Proof.
  intros Ha Hv. split.
  - apply Qle_shift_div_l; lra.
  - apply Qle_shift_div_r; lra.
Qed.

Lemma unit_product (a b : Q) :
  0 <= a <= 1 -> 0 <= b <= 1 -> 0 <= a * b <= 1.
Proof. intros [? ?] [? ?]. split; nra. Qed.

(** X11.  The rate modifier of [check_max_speeds] never speeds a move up
    and is never negative: it lies in [0, 1], for every target, time and
    object. *)
Theorem check_max_speeds_modifier target isecs e :
  let rm := result (check_max_speeds target isecs e) in
  0 <= rm <= 1.
Proof.
  unfold check_max_speeds. run_monad.
  assert (Hvol : forall delta,
    let volumetric :=
      if Qltb 0 (max_volumetric_rate e)
         && Qltb eps_diameter (filament_diameter e) then
        if Qltb (max_volumetric_rate e) (delta * isecs) then
          (max_volumetric_rate e / (delta * isecs),
           isecs * (max_volumetric_rate e / (delta * isecs)))
        else (1, isecs)
      else (1, isecs) in
    0 <= fst volumetric <= 1).
  { intro delta. cbv zeta.
    destruct (Qltb 0 (max_volumetric_rate e)) eqn:E1; cbn [andb fst];
      [|lra].
    destruct (Qltb eps_diameter (filament_diameter e)); cbn [fst]; [|lra].
    destruct (Qltb (max_volumetric_rate e) (delta * isecs)) eqn:E2;
      cbn [fst]; [|lra].
    apply Qltb_lt in E1, E2. now apply ratio_in_unit. }
  assert (Hsm : forall v,
    0 < max_rate (stepper_motor e) ->
    0 <= (if Qltb (max_rate (stepper_motor e)) v
          then 1 * (max_rate (stepper_motor e) / v) else 1) <= 1).
  { intros v Hmax. destruct (Qltb _ v) eqn:E; [|lra].
    apply Qltb_lt in E. destruct (ratio_in_unit _ _ Hmax E). lra. }
  destruct (milestone_absolute_mode e); run_monad; fields.
  - specialize (Hvol (Qabs (target - milestone_last_position e))).
    cbv zeta in Hvol.
    destruct (Qltb 0 (max_rate (stepper_motor e))) eqn:E3; run_monad;
      [|exact Hvol].
    apply Qltb_lt in E3. apply unit_product; [exact Hvol|]. now apply Hsm.
  - specialize (Hvol target). cbv zeta in Hvol.
    destruct (Qltb 0 (max_rate (stepper_motor e))) eqn:E3; run_monad;
      [|exact Hvol].
    apply Qltb_lt in E3. apply unit_product; [exact Hvol|]. now apply Hsm.
Qed.

Lemma Qltb_false (a b : Q) : b <= a -> Qltb a b = false.
Proof.
  intro H. unfold Qltb. apply negb_false_iff. now apply Qle_bool_iff.
Qed.

(** X12.  [check_max_speeds] never slows down a move whose target is
    relative and not positive (a retraction in relative mode): the change in
    E is taken with its sign, so it is never above a maximum rate, and the
    modifier is 1 whatever the maximum rates are. *)
Theorem check_max_speeds_negative_target target isecs e :
  milestone_absolute_mode e = false ->
  target <= 0 -> 0 <= isecs -> 0 <= volumetric_multiplier e ->
  result (check_max_speeds target isecs e) == 1.
Proof.
  intros Hrel Ht Hi Hvm.
  unfold check_max_speeds. run_monad. rewrite Hrel. run_monad. fields.
  assert (Hv : target * isecs <= 0) by nra.
  assert (Hw : target * volumetric_multiplier e * isecs <= 0) by nra.
  destruct (Qltb 0 (max_volumetric_rate e)) eqn:E1;
    [apply Qltb_lt in E1;
     rewrite (Qltb_false (max_volumetric_rate e) (target * isecs)) by lra|];
    destruct (Qltb eps_diameter (filament_diameter e)) eqn:E0;
    cbn [andb fst snd];
    (destruct (Qltb 0 (max_rate (stepper_motor e))) eqn:E3;
     [apply Qltb_lt in E3;
      rewrite ?(Qltb_false (max_rate (stepper_motor e)) (target * isecs)) by lra;
      rewrite ?(Qltb_false (max_rate (stepper_motor e))
                  (target * volumetric_multiplier e * isecs)) by lra|]);
    run_monad; fields; reflexivity.
Qed.

(** X13.  A save-state request followed later by a restore-state request
    brings back [current_position] and [absolute_mode] and sets the milestone
    to them, whatever happened in between to the fields other than
    [saved_current_position]; both requests are marked as taken. *)
Theorem save_restore_round_trip pdr_save pdr_restore saved0 e e1 :
  starts_with_extruder pdr_save = true ->
  second_element pdr_save = save_state_checksum ->
  starts_with_extruder pdr_restore = true ->
  second_element pdr_restore = restore_state_checksum ->
  let saved := on_set_public_data pdr_save saved0 e in
  saved_current_position e1 = saved_current_position (after saved) ->
  let restored := on_set_public_data pdr_restore (snd (result saved)) e1 in
  current_position (after restored) = current_position e
  /\ absolute_mode (after restored) = absolute_mode e
  /\ milestone_last_position (after restored) = current_position e
  /\ milestone_absolute_mode (after restored) = absolute_mode e
  /\ is_taken (fst (result saved)) = true
  /\ is_taken (fst (result restored)) = true.
Proof.
  intros Hs1 Hs2 Hr1 Hr2 saved Hkeep restored.
  subst saved restored. revert Hkeep.
  unfold on_set_public_data. run_monad.
  rewrite Hs1, Hs2, Hr1, Hr2. cbn [negb]. run_monad. fields.
  intros ->. repeat split.
Qed.

(** X14.  An M92, M200, M203, M204, M207 or M208 that does not address this
    extruder (a P word with another identifier, or no P word on a disabled
    extruder) changes nothing and calls nothing. *)
Theorem settings_for_another_extruder fuel h sc gcode e :
  has_m gcode = true ->
  In (m gcode) settings_codes ->
  addressed e gcode = false ->
  let r := on_gcode_received fuel h sc gcode e in
  after r = e /\ calls r = [].
Proof.
  intros Hm Hin Haddr r. subst r.
  unfold on_gcode_received, received_command, received_modal. run_monad.
  rewrite Hm, Haddr.
  cbn [settings_codes In] in Hin.
  destruct Hin as [H|[H|[H|[H|[H|[H|[]]]]]]]; rewrite <- H; decide_codes;
    rewrite ?andb_false_r; cbn [andb orb negb]; run_monad;
    split; reflexivity.
Qed.

(** Without a filament diameter above 0.01 the maximum volumetric rate
    has no say in [check_max_speeds]. *)
Lemma check_max_speeds_without_diameter target isecs v e :
  filament_diameter e <= eps_diameter ->
  result (check_max_speeds target isecs (set_max_volumetric_rate v e))
  = result (check_max_speeds target isecs e).
Proof.
  intro Hd. unfold check_max_speeds. run_monad. fields.
  rewrite (Qltb_false eps_diameter (filament_diameter e) Hd).
  rewrite !andb_false_r.
  destruct (milestone_absolute_mode e); run_monad; fields;
    destruct (Qltb 0 (max_rate (stepper_motor e))); run_monad; reflexivity.
Qed.

(** X15.  M200 for this extruder: with a D word it waits for the queue to
    be empty and stores the diameter.  A diameter at or below 0.01 switches
    the volumetric extrusion off: the multiplier is 1 and the maximum
    volumetric rate no longer has a say in [check_max_speeds].  A diameter
    above 0.01 sets the multiplier the code computes from it.  Without a D
    word nothing changes and nothing is called. *)
Theorem filament_diameter_command fuel h sc gcode e :
  has_m gcode = true -> m gcode = 200%Z ->
  addressed e gcode = true ->
  let r := on_gcode_received fuel h sc gcode e in
  let d := get_value gcode "D" in
  (has_letter gcode "D" = true ->
   filament_diameter (after r) = d
   /\ (d <= eps_diameter ->
       volumetric_multiplier (after r) = 1
       /\ forall target isecs v,
            result (check_max_speeds target isecs
                      (set_max_volumetric_rate v (after r)))
            = result (check_max_speeds target isecs (after r)))
   /\ (eps_diameter < d ->
       volumetric_multiplier (after r) = volumetric_multiplier_of d)
   /\ calls r = [conveyor_wait_for_empty_queue])
  /\ (has_letter gcode "D" = false -> after r = e /\ calls r = []).
Proof.
  intros Hm H200 Haddr r d. subst r.
  unfold on_gcode_received, received_command, received_modal. run_monad.
  rewrite Hm, H200, Haddr. decide_codes. cbn [andb orb negb]. run_monad.
  fold d.
  destruct (has_letter gcode "D"); run_monad.
  - split; [intros _|discriminate].
    destruct (Qltb eps_diameter d) eqn:E; run_monad; fields.
    + apply Qltb_lt in E. split; [reflexivity|]. split; [intro; lra|].
      split; [intros _; reflexivity|reflexivity].
    + apply Qltb_ge in E. split; [reflexivity|]. split; [|split].
      * intros _. split; [reflexivity|]. intros target isecs v.
        apply check_max_speeds_without_diameter. fields. exact E.
      * intro. lra.
      * reflexivity.
  - split; [discriminate|]. intros _. split; reflexivity.
Qed.

(** [optimize_angle] writes [travel_distance] and [previous_angle] only. *)
Lemma optimize_angle_shape (h : ExtruderH) (a : Q) (e : Extruder) :
  exists t p,
    optimize_angle h a e
    = (0, set_previous_angle p (set_travel_distance t e), []).
Proof.
  unfold optimize_angle. run_monad.
  destruct (Qeq_bool _ _);
    [exists 0, (previous_angle e); reflexivity|].
  destruct (Qeq_bool _ _);
    [exists 0, (previous_angle e); reflexivity|].
  destruct (diff_case_of _) as [[| | |]|]; run_monad;
    try destruct (Qltb _ 0); run_monad;
    eexists; eexists; reflexivity.
Qed.

(** X16.  After [on_gcode_execute] the mode is SOLO or FOLLOW only for a
    G0 to G3 (any G code up to 3 that is not an M code) with an E word on an
    enabled extruder: SOLO if the robot travels less than 0.00001, FOLLOW
    otherwise; for every other command it is OFF. *)
Theorem on_gcode_execute_mode h k gcode e :
  mode (after (on_gcode_execute h k gcode e))
  = if negb (has_m gcode) && has_g gcode && enabled e
       && (g gcode <=? 3)%Z && has_letter gcode "E"
    then if Qltb (Qabs (millimeters_of_travel gcode)) eps_travel
         then SOLO else FOLLOW
    else OFF.
Proof.
  unfold on_gcode_execute. run_monad. fields.
  destruct (has_m gcode); cbn [negb andb]; [branches; reflexivity|].
  destruct (has_g gcode); cbn [andb]; [|reflexivity].
  destruct (enabled e); cbn [andb]; [|branches; reflexivity].
  destruct (Z.leb_spec (g gcode) 3) as [Hle|Hgt]; cbn [andb].
  - assert (H90 : (g gcode =? 90)%Z = false) by (apply Z.eqb_neq; lia).
    assert (H91 : (g gcode =? 91)%Z = false) by (apply Z.eqb_neq; lia).
    assert (H92 : (g gcode =? 92)%Z = false) by (apply Z.eqb_neq; lia).
    rewrite H90, H91, H92. cbn [orb]. run_monad.
    destruct (has_letter gcode "E").
    + destruct (optimize_angle_shape h (get_value gcode "E") (set_mode OFF e))
        as (t & p & ->).
      run_monad. fields.
      branches; run_monad; fields; reflexivity.
    + run_monad. branches; run_monad; reflexivity.
  - destruct (g gcode =? 90)%Z; cbn [orb]; [reflexivity|].
    destruct (g gcode =? 91)%Z; [reflexivity|].
    destruct (g gcode =? 92)%Z; run_monad; [|reflexivity].
    destruct (has_letter gcode "E").
    + destruct (optimize_angle_shape h (get_value gcode "E") (set_mode OFF e))
        as (t & p & ->).
      reflexivity.
    + branches; reflexivity.
Qed.

Ltac stepwise :=
  repeat (run_monad; fields;
          match goal with
          | |- context [if ?c then _ else _] => destruct c eqn:?
          end);
  run_monad; fields.

Ltac comparisons :=
  repeat match goal with
         | H : _ && _ = true |- _ => apply andb_true_iff in H; destruct H
         | H : _ && _ = false |- _ => apply andb_false_iff in H; destruct H
         | H : Qltb _ _ = true |- _ => apply Qltb_lt in H
         | H : Qltb _ _ = false |- _ => apply Qltb_ge in H
         end.

(** X17.  A G0 to G3 with an F word on an enabled extruder sets [feed_rate]
    to F per minute, or to the maximum rate of the stepper if one is set and
    F is above it: the feed rate never exceeds a set maximum rate. *)
Theorem feed_rate_capped h k gcode e :
  has_m gcode = false -> has_g gcode = true -> enabled e = true ->
  (g gcode <= 3)%Z ->
  has_letter gcode "F" = true ->
  let e' := after (on_gcode_execute h k gcode e) in
  let requested := get_value gcode "F" / seconds_per_minute k in
  let limit := max_rate (stepper_motor e) in
  (feed_rate e' = requested \/ feed_rate e' = limit)
  /\ (0 < limit -> feed_rate e' <= limit)
  /\ (limit <= 0 -> feed_rate e' = requested).
Proof.
  intros Hm Hg He Hle HF e' requested limit. subst e'.
  unfold on_gcode_execute. run_monad. fields.
  rewrite Hm, Hg, He, HF.
  assert (H90 : (g gcode =? 90)%Z = false) by (apply Z.eqb_neq; lia).
  assert (H91 : (g gcode =? 91)%Z = false) by (apply Z.eqb_neq; lia).
  assert (H92 : (g gcode =? 92)%Z = false) by (apply Z.eqb_neq; lia).
  assert (H3 : (g gcode <=? 3)%Z = true) by (apply Z.leb_le; lia).
  rewrite H90, H91, H92, H3. cbn [orb andb]. run_monad.
  destruct (has_letter gcode "E").
  - destruct (optimize_angle_shape h (get_value gcode "E") (set_mode OFF e))
      as (t & p & ->).
    subst limit requested.
    stepwise; comparisons; repeat split; auto; intros; lra.
  - subst limit requested.
    stepwise; comparisons; repeat split; auto; intros; lra.
Qed.

(** X18.  With a positive z-lift length, a G10 is queued before the lift
    move of +length, and the recovering G11 is queued after the move of
    -length: the calls are append, queue, lift, then unlift, append,
    queue. *)
Theorem zlift_after_retract_before_recover fuel h sc g10 g11 e :
  has_m g10 = false -> has_g g10 = true -> g g10 = 10%Z ->
  has_letter g10 "L" = false ->
  has_m g11 = false -> has_g g11 = true -> g g11 = 11%Z ->
  has_letter g11 "L" = false ->
  enabled e = true -> retracted e = false ->
  0 < retract_zlift_length e ->
  let r1 := on_gcode_received fuel h sc g10 e in
  let r2 := on_gcode_received fuel h sc g11 (after r1) in
  calls r1 = [conveyor_append_gcode g10; conveyor_queue_head_block;
              robot_relative_move_Z (retract_zlift_length e)
                                    (retract_zlift_feedrate e)]
  /\ calls r2 = [robot_relative_move_Z (- retract_zlift_length e)
                                       (retract_zlift_feedrate e);
                 conveyor_append_gcode g11; conveyor_queue_head_block]
  /\ retracted (after r1) = true
  /\ retracted (after r2) = false.
Proof.
  intros Hm0 Hg0 H10 HL0 Hm1 Hg1 H11 HL1 He Hr Hz r1 r2. subst r1 r2.
  apply Qltb_lt in Hz.
  unfold on_gcode_received, received_command, received_modal. run_monad.
  rewrite Hm0, Hg0, H10, HL0, Hm1, Hg1, H11.
  do 4 (run_monad; fields; rewrite ?He, ?Hr, ?HL1, ?Hz; decide_codes;
        cbn [andb orb negb]).
  repeat split.
Qed.

(** X19.  A G0 or G1 with a Z word and no E word received while retracted
    sets [cancel_zlift_restore] and calls nothing; the next G11 then recovers
    with no Z move. *)
Theorem zlift_restore_cancelled_by_Z_move fuel h sc gz g11 e :
  has_m gz = false -> has_g gz = true -> (g gz = 0 \/ g gz = 1)%Z ->
  has_letter gz "Z" = true -> has_letter gz "E" = false ->
  has_m g11 = false -> has_g g11 = true -> g g11 = 11%Z ->
  has_letter g11 "L" = false ->
  enabled e = true -> retracted e = true ->
  let rz := on_gcode_received fuel h sc gz e in
  let r2 := on_gcode_received fuel h sc g11 (after rz) in
  cancel_zlift_restore (after rz) = true
  /\ calls rz = []
  /\ calls r2 = [conveyor_append_gcode g11; conveyor_queue_head_block]
  /\ retracted (after r2) = false.
Proof.
  intros Hm0 Hg0 Hgz HZ HE Hm1 Hg1 H11 HL1 He Hr rz r2. subst rz r2.
  unfold on_gcode_received, received_command, received_modal. run_monad.
  rewrite Hm0, Hg0, HZ, HE, Hm1, Hg1, H11.
  destruct Hgz as [-> | ->];
    do 4 (run_monad; fields; rewrite ?He, ?Hr, ?HL1, ?andb_false_r;
          decide_codes; cbn [andb orb negb]);
    repeat split.
Qed.

(** X20.  A disabled extruder ignores the block events, the speed changes
    and the acceleration ticks (nothing changes, nothing is called), and on
    [on_gcode_execute] changes at most the mode (to OFF), the absolute mode
    and the enable pin. *)
Theorem disabled_extruder_idle h k block argument dummy gcode e :
  enabled e = false ->
  on_block_begin k block e = (tt, e, [])
  /\ on_block_end e = (tt, e, [])
  /\ on_speed_change k argument e = (tt, e, [])
  /\ acceleration_tick k e = (tt, e, [])
  /\ stepper_motor_finished_move dummy e = (0%Z, e, [])
  /\ (let r := on_gcode_execute h k gcode e in
      calls r = []
      /\ exists am pin,
           after r = set_en_pin pin (set_absolute_mode am (set_mode OFF e))).
Proof.
  intro He.
  unfold on_block_begin, on_block_end, on_speed_change, acceleration_tick,
    stepper_motor_finished_move, on_gcode_execute.
  run_monad. fields. rewrite He, ?andb_false_r. cbn [negb andb orb].
  split; [reflexivity|]. split; [reflexivity|].
  split; [destruct (current_block e); reflexivity|].
  split; [reflexivity|]. split; [reflexivity|].
  split.
  - branches; reflexivity.
  - branches; run_monad; eexists; eexists;
      cbv beta delta [set_en_pin set_absolute_mode set_mode]; fields;
      reflexivity.
Qed.





Lemma angle_to_distance_of_zero (e : Extruder) : angle_to_distance e 0 == 0.
Proof. unfold angle_to_distance, Qdiv. ring. Qed.

(** X23.  G92 on an enabled extruder, with an E word (whatever its value)
    or with no word at all, leaves the current and the target angle and
    position at 0 and the unstepped distance at 0; with other words only it
    changes nothing but the mode. *)
Theorem G92_resets_to_zero h k gcode e :
  has_m gcode = false -> has_g gcode = true -> g gcode = 92%Z ->
  enabled e = true -> ~ steps_per_millimeter e == 0 ->
  let e' := after (on_gcode_execute h k gcode e) in
  (has_letter gcode "E" = true \/ get_num_args gcode = 0%nat ->
   current_angle e' = 0 /\ target_angle e' = 0
   /\ current_position e' == 0 /\ target_position e' == 0
   /\ unstepped_distance e' = 0)
  /\ (has_letter gcode "E" = false -> get_num_args gcode <> 0%nat ->
      e' = set_mode OFF e).
Proof.
  intros Hm Hg H92 He _ e'. subst e'.
  unfold on_gcode_execute. run_monad. fields.
  rewrite Hm, Hg, H92, He. decide_codes. cbn [andb orb negb]. run_monad.
  destruct (has_letter gcode "E") eqn:HE.
  - destruct (optimize_angle_shape h (get_value gcode "E") (set_mode OFF e))
      as (t & p & ->).
    run_monad. fields.
    split; [|discriminate].
    intros _. repeat split; try reflexivity; apply angle_to_distance_of_zero.
  - destruct (Nat.eqb_spec (get_num_args gcode) 0) as [Hn|Hn]; run_monad; fields.
    + split; [|intros _ Hne; contradiction].
      intros _. repeat split; reflexivity.
    + split; [|reflexivity].
      intros [Hc|Hc]; [discriminate|contradiction].
Qed.

(** X24.  The E value of a G0 to G3 never reaches the target: in absolute
    mode the target position and angle become 0 and the ratio of a FOLLOW
    move is that of a move back by the old target position; in relative
    mode the targets stay and the ratio of a FOLLOW move is 0.  The enable
    pin is cleared. *)
Theorem extrusion_move_targets h k gcode e :
  has_m gcode = false -> has_g gcode = true -> enabled e = true ->
  (g gcode <= 3)%Z -> has_letter gcode "E" = true ->
  ~ steps_per_millimeter e == 0 ->
  let e' := after (on_gcode_execute h k gcode e) in
  let travel := millimeters_of_travel gcode in
  en_pin e' = false
  /\ (absolute_mode e = true ->
      target_position e' == 0 /\ target_angle e' = 0
      /\ (eps_travel <= Qabs travel ->
          travel_ratio e'
          == (- target_position e * volumetric_multiplier e
              * extruder_multiplier e) / travel))
  /\ (absolute_mode e = false ->
      target_position e' == target_position e
      /\ target_angle e' == target_angle e
      /\ (eps_travel <= Qabs travel -> travel_ratio e' == 0)).
Proof.
  intros Hm Hg He Hle HE _ e' travel. subst e' travel.
  unfold on_gcode_execute. run_monad. fields.
  rewrite Hm, Hg, He, HE.
  assert (H90 : (g gcode =? 90)%Z = false) by (apply Z.eqb_neq; lia).
  assert (H91 : (g gcode =? 91)%Z = false) by (apply Z.eqb_neq; lia).
  assert (H92 : (g gcode =? 92)%Z = false) by (apply Z.eqb_neq; lia).
  assert (H3 : (g gcode <=? 3)%Z = true) by (apply Z.leb_le; lia).
  rewrite H90, H91, H92, H3. cbn [orb andb]. run_monad.
  destruct (optimize_angle_shape h (get_value gcode "E") (set_mode OFF e))
    as (t & p & ->).
  run_monad. fields.
  destruct (absolute_mode e) eqn:Ha; run_monad; fields.
  - destruct (Qltb (Qabs (millimeters_of_travel gcode)) eps_travel) eqn:Ht;
      run_monad; fields;
      (destruct (has_letter gcode "F"); run_monad; fields;
       [destruct (Qltb 0 _ && _); run_monad; fields|]);
      (split; [reflexivity|]); (split; [|discriminate]); intros _;
      (split; [apply angle_to_distance_of_zero|]); (split; [reflexivity|]);
      intro Hge.
    all: try (apply Qltb_lt in Ht; lra).
    all: unfold angle_to_distance, Qdiv; ring.
  - destruct (Qltb (Qabs (millimeters_of_travel gcode)) eps_travel) eqn:Ht;
      run_monad; fields;
      (destruct (has_letter gcode "F"); run_monad; fields;
       [destruct (Qltb 0 _ && _); run_monad; fields|]);
      (split; [reflexivity|]); (split; [discriminate|]); intros _;
      (split; [unfold angle_to_distance, Qdiv; ring|]); (split; [ring|]);
      intro Hge.
    all: try (apply Qltb_lt in Ht; lra).
    all: unfold angle_to_distance, Qdiv; ring.
Qed.

(** * The further properties at concrete inputs *)

Lemma optimize_angle_keeps_range_witness :
  (MIN_ANGLE_LIMIT bench_header <= 0 /\ 360 <= MAX_ANGLE_LIMIT bench_header
   /\ 0 <= previous_angle bench <= 360 /\ -360 <= -90 <= 360)
  /\ 0 <= previous_angle (after (optimize_angle bench_header (-90) bench)) <= 360.
Proof.
  assert (Hmin : MIN_ANGLE_LIMIT bench_header <= 0) by discriminate.
  assert (Hmax : 360 <= MAX_ANGLE_LIMIT bench_header) by discriminate.
  assert (Hp : 0 <= previous_angle bench <= 360) by (split; discriminate).
  assert (Hi : -360 <= -90 <= 360) by (split; discriminate).
  split; [auto|].
  exact (optimize_angle_keeps_range bench_header bench (-90) Hmin Hmax Hp Hi).
Defined.

Lemma on_block_begin_wraps_angle_witness :
  let e := set_current_angle 350 bench_solo in
  (current_angle e <= 360
   /\ distance_to_angle e (travel_distance e) <= 360)
  /\ current_angle (after (on_block_begin bench_kernel block_1 e)) <= 360.
Proof.
  intro e.
  assert (Hc : current_angle e <= 360) by discriminate.
  assert (Ht : distance_to_angle e (travel_distance e) <= 360) by discriminate.
  split; [auto|].
  exact (on_block_begin_wraps_angle bench_kernel block_1 e Hc Ht).
Defined.



Lemma check_max_speeds_negative_target_witness :
  let e := set_milestone_absolute_mode false bench in
  (milestone_absolute_mode e = false /\ -5000 <= 0 /\ 0 <= 1
   /\ 0 <= volumetric_multiplier e)
  /\ result (check_max_speeds (-5000) 1 e) == 1.
Proof.
  intro e.
  assert (Hrel : milestone_absolute_mode e = false) by reflexivity.
  assert (Ht : -5000 <= 0) by discriminate.
  assert (Hi : 0 <= 1) by discriminate.
  assert (Hvm : 0 <= volumetric_multiplier e) by discriminate.
  split; [auto|].
  exact (check_max_speeds_negative_target (-5000) 1 e Hrel Ht Hi Hvm).
Defined.

Lemma save_restore_round_trip_witness :
  let e := set_current_position 12 bench in
  let saved := on_set_public_data save_request false e in
  let e1 := set_absolute_mode false (set_current_position 99 (after saved)) in
  let restored := on_set_public_data restore_request (snd (result saved)) e1 in
  (saved_current_position e1 = saved_current_position (after saved))
  /\ current_position (after restored) = current_position e
  /\ absolute_mode (after restored) = absolute_mode e.
Proof.
  intros e saved e1 restored.
  assert (Hk : saved_current_position e1 = saved_current_position (after saved))
    by reflexivity.
  split; [exact Hk|].
  destruct (save_restore_round_trip save_request restore_request false e e1
              eq_refl eq_refl eq_refl eq_refl Hk) as (Hp & Ha & _).
  split; [exact Hp|exact Ha].
Defined.

Lemma settings_for_another_extruder_witness :
  let gcode := M_code 92 [("E", 100); ("P", 5)] in
  (has_m gcode = true /\ In (m gcode) settings_codes
   /\ addressed bench gcode = false)
  /\ after (on_gcode_received 0 bench_header (never_halted peak_at_18)
              gcode bench) = bench.
Proof.
  intro gcode.
  assert (Hm : has_m gcode = true) by reflexivity.
  assert (Hin : In (m gcode) settings_codes) by (left; reflexivity).
  assert (Ha : addressed bench gcode = false) by reflexivity.
  split; [auto|].
  exact (proj1 (settings_for_another_extruder 0 bench_header
                  (never_halted peak_at_18) gcode bench Hm Hin Ha)).
Defined.

Lemma filament_diameter_command_witness :
  let gcode := M_code 200 [("D", 0)] in
  let e := set_filament_diameter 2 bench in
  (has_m gcode = true /\ m gcode = 200%Z /\ addressed e gcode = true
   /\ has_letter gcode "D" = true /\ get_value gcode "D" <= eps_diameter)
  /\ (let r := on_gcode_received 0 bench_header (never_halted peak_at_18)
                 gcode e in
      filament_diameter (after r) = 0
      /\ volumetric_multiplier (after r) = 1
      /\ calls r = [conveyor_wait_for_empty_queue]).
Proof.
  intros gcode e.
  assert (Hm : has_m gcode = true) by reflexivity.
  assert (H200 : m gcode = 200%Z) by reflexivity.
  assert (Ha : addressed e gcode = true) by reflexivity.
  assert (HD : has_letter gcode "D" = true) by reflexivity.
  assert (Hd : get_value gcode "D" <= eps_diameter) by discriminate.
  split; [auto 6|].
  destruct (filament_diameter_command 0 bench_header (never_halted peak_at_18)
              gcode e Hm H200 Ha) as [Hwith _].
  destruct (Hwith HD) as (Hfd & Hoff & _ & Hcalls).
  split; [exact Hfd|]. split; [exact (proj1 (Hoff Hd))|exact Hcalls].
Defined.

Lemma feed_rate_capped_witness :
  let gcode := G 1 [("E", 90); ("F", 120000)] 0 in
  (has_m gcode = false /\ has_g gcode = true /\ enabled bench = true
   /\ (g gcode <= 3)%Z /\ has_letter gcode "F" = true
   /\ 0 < max_rate (stepper_motor bench))
  /\ (let e' := after (on_gcode_execute bench_header bench_kernel gcode bench) in
      feed_rate e' <= max_rate (stepper_motor bench)).
Proof.
  intro gcode.
  assert (Hm : has_m gcode = false) by reflexivity.
  assert (Hg : has_g gcode = true) by reflexivity.
  assert (He : enabled bench = true) by reflexivity.
  assert (Hle : (g gcode <= 3)%Z) by discriminate.
  assert (HF : has_letter gcode "F" = true) by reflexivity.
  assert (Hl : 0 < max_rate (stepper_motor bench)) by reflexivity.
  split; [auto 7|].
  destruct (feed_rate_capped bench_header bench_kernel gcode bench
              Hm Hg He Hle HF) as (_ & Hcap & _).
  exact (Hcap Hl).
Defined.

Lemma zlift_after_retract_before_recover_witness :
  let e := set_retract_zlift_length 1 bench in
  let g10 := G 10 [] 0 in
  let g11 := G 11 [] 0 in
  let sc := never_halted peak_at_18 in
  (enabled e = true /\ retracted e = false /\ 0 < retract_zlift_length e)
  /\ (let r1 := on_gcode_received 0 bench_header sc g10 e in
      let r2 := on_gcode_received 0 bench_header sc g11 (after r1) in
      retracted (after r1) = true /\ retracted (after r2) = false).
Proof.
  intros e g10 g11 sc.
  assert (He : enabled e = true) by reflexivity.
  assert (Hr : retracted e = false) by reflexivity.
  assert (Hz : 0 < retract_zlift_length e) by reflexivity.
  split; [auto|].
  destruct (zlift_after_retract_before_recover 0 bench_header sc g10 g11 e
              eq_refl eq_refl eq_refl eq_refl eq_refl eq_refl eq_refl eq_refl
              He Hr Hz) as (_ & _ & H1 & H2).
  split; [exact H1|exact H2].
Defined.

Lemma zlift_restore_cancelled_by_Z_move_witness :
  let e := set_retracted true (set_retract_zlift_length 1 bench) in
  let gz := G 1 [("Z", 10)] 5 in
  let g11 := G 11 [] 0 in
  let sc := never_halted peak_at_18 in
  (enabled e = true /\ retracted e = true)
  /\ (let rz := on_gcode_received 0 bench_header sc gz e in
      let r2 := on_gcode_received 0 bench_header sc g11 (after rz) in
      cancel_zlift_restore (after rz) = true
      /\ calls r2 = [conveyor_append_gcode g11; conveyor_queue_head_block]).
Proof.
  intros e gz g11 sc.
  assert (He : enabled e = true) by reflexivity.
  assert (Hr : retracted e = true) by reflexivity.
  split; [auto|].
  destruct (zlift_restore_cancelled_by_Z_move 0 bench_header sc gz g11 e
              eq_refl eq_refl (or_intror eq_refl) eq_refl eq_refl
              eq_refl eq_refl eq_refl eq_refl He Hr) as (H1 & _ & H2 & _).
  split; [exact H1|exact H2].
Defined.

Lemma disabled_extruder_idle_witness :
  let e := set_enabled false bench_solo in
  enabled e = false
  /\ on_block_begin bench_kernel block_1 e = (tt, e, [])
  /\ stepper_motor_finished_move 0 e = (0%Z, e, []).
Proof.
  intro e.
  assert (He : enabled e = false) by reflexivity.
  split; [exact He|].
  destruct (disabled_extruder_idle bench_header bench_kernel block_1 null 0%Z
              (G 1 [] 0) e He) as (H1 & _ & _ & _ & H5 & _).
  split; [exact H1|exact H5].
Defined.



Lemma G92_resets_to_zero_witness :
  let gcode := G 92 [("E", 90)] 0 in
  let e := set_current_position 7 bench in
  (has_m gcode = false /\ has_g gcode = true /\ g gcode = 92%Z
   /\ enabled e = true /\ ~ steps_per_millimeter e == 0
   /\ has_letter gcode "E" = true)
  /\ (let e' := after (on_gcode_execute bench_header bench_kernel gcode e) in
      current_angle e' = 0 /\ current_position e' == 0).
Proof.
  intros gcode e.
  assert (Hm : has_m gcode = false) by reflexivity.
  assert (Hg : has_g gcode = true) by reflexivity.
  assert (H92 : g gcode = 92%Z) by reflexivity.
  assert (He : enabled e = true) by reflexivity.
  assert (Hs : ~ steps_per_millimeter e == 0) by discriminate.
  assert (HE : has_letter gcode "E" = true) by reflexivity.
  split; [auto 7|].
  destruct (G92_resets_to_zero bench_header bench_kernel gcode e
              Hm Hg H92 He Hs) as [Hreset _].
  destruct (Hreset (or_introl HE)) as (Ha & _ & Hp & _).
  split; [exact Ha|exact Hp].
Defined.

Lemma extrusion_move_targets_witness :
  let gcode := G 1 [("E", 90)] 5 in
  let e := set_target_position 12 bench in
  (has_m gcode = false /\ has_g gcode = true /\ enabled e = true
   /\ (g gcode <= 3)%Z /\ has_letter gcode "E" = true
   /\ ~ steps_per_millimeter e == 0
   /\ absolute_mode e = true
   /\ eps_travel <= Qabs (millimeters_of_travel gcode))
  /\ (let e' := after (on_gcode_execute bench_header bench_kernel gcode e) in
      target_position e' == 0
      /\ travel_ratio e'
         == (- target_position e * volumetric_multiplier e
             * extruder_multiplier e) / millimeters_of_travel gcode).
Proof.
  intros gcode e.
  assert (Hm : has_m gcode = false) by reflexivity.
  assert (Hg : has_g gcode = true) by reflexivity.
  assert (He : enabled e = true) by reflexivity.
  assert (Hle : (g gcode <= 3)%Z) by discriminate.
  assert (HE : has_letter gcode "E" = true) by reflexivity.
  assert (Hs : ~ steps_per_millimeter e == 0) by discriminate.
  assert (Ha : absolute_mode e = true) by reflexivity.
  assert (Ht : eps_travel <= Qabs (millimeters_of_travel gcode)) by discriminate.
  split; [auto 9|].
  destruct (extrusion_move_targets bench_header bench_kernel gcode e
              Hm Hg He Hle HE Hs) as (_ & Habs & _).
  destruct (Habs Ha) as (Hp & _ & Hr).
  split; [exact Hp|exact (Hr Ht)].
Defined.
